(** * A shallow embedding of the statusbar engine (snhilde/statusbar)

    The routine supervisor loop ([routine.run]), the master output builder
    ([Statusbar.buildBar]), routine registration ([Statusbar.Append]), the
    REST handlers that touch routines ([HandlePutRoutine],
    [HandlePutRoutineAll], [HandlePatchRoutine], [getRoutine]), the
    read-only handlers ([HandleGetRoutineAll], [HandleGetRoutine]), the
    routine's accessors ([uptime], [interval], [setInterval]), [Split], and
    the arithmetic of the disk module ([sbdisk]: [shrink] and [Update]).

    Go's [time.Duration] is an int64 count of nanoseconds; it is modelled as
    [Z] with the int64 wrap-around written out where the source multiplies or
    subtracts durations. *)

From Stdlib Require Import ZArith Ascii String Lia.
From stdpp Require Import base list strings gmap.

Open Scope Z_scope.

(** ** Go integers and durations *)

Definition wrap64 (z : Z) : Z :=
  let r := z mod 2 ^ 64 in
  if (r <? 2 ^ 63)%Z then r else (r - 2 ^ 64)%Z.

(** [time.Second] in nanoseconds. *)
Definition Second : Z := 1000000000.

(** ** The routine handler interface ([RoutineHandler]) *)

(** [Update] returns the handler's new internal state, the [ok] flag and an
    error ([None] is Go's [nil]). [String], [Error] and [Name] read the state. *)
Class RoutineHandler (H : Type) := {
  rh_Update : H -> H * bool * option string;
  rh_String : H -> string;
  rh_Error : H -> string;
  rh_Name : H -> string
}.

(** ** The routine object ([routine] in routine.go)

    The two channels have a buffer of one; a channel is modelled by whether
    its single slot holds a token. *)
Record routine (H : Type) := mkRoutine {
  handler : H;
  name : string;
  isActive : bool;
  intervalTime : Z;
  startTime : Z;
  updateChan : bool;
  stopChan : bool
}.
Arguments mkRoutine {H}.
Arguments handler {H}.
Arguments name {H}.
Arguments isActive {H}.
Arguments intervalTime {H}.
Arguments startTime {H}.
Arguments updateChan {H}.
Arguments stopChan {H}.

Section RoutineFields.
Context {H : Type}.

Definition set_handler (r : routine H) (h : H) : routine H :=
  mkRoutine h (name r) (isActive r) (intervalTime r) (startTime r)
    (updateChan r) (stopChan r).
Definition set_name (r : routine H) (n : string) : routine H :=
  mkRoutine (handler r) n (isActive r) (intervalTime r) (startTime r)
    (updateChan r) (stopChan r).
Definition set_active (r : routine H) (b : bool) : routine H :=
  mkRoutine (handler r) (name r) b (intervalTime r) (startTime r)
    (updateChan r) (stopChan r).
Definition set_intervalTime (r : routine H) (d : Z) : routine H :=
  mkRoutine (handler r) (name r) (isActive r) d (startTime r)
    (updateChan r) (stopChan r).
Definition set_startTime (r : routine H) (t : Z) : routine H :=
  mkRoutine (handler r) (name r) (isActive r) (intervalTime r) t
    (updateChan r) (stopChan r).
Definition set_updateChan (r : routine H) (b : bool) : routine H :=
  mkRoutine (handler r) (name r) (isActive r) (intervalTime r) (startTime r)
    b (stopChan r).

(** [newRoutine]: zero values, both channels empty. *)
Definition newRoutine (h : H) : routine H :=
  mkRoutine h ""%string false 0 0 false false.

(** [setInterval]: [time.Duration(interval) * time.Second]. *)
Definition setInterval (r : routine H) (interval : Z) : routine H :=
  set_intervalTime r (wrap64 (interval * Second)).

(** [interval]: [int(r.intervalTime.Seconds())], truncation toward zero. *)
Definition interval (r : routine H) : Z := Z.quot (intervalTime r) Second.

(** [uptime]: [int(time.Since(r.startTime).Seconds())] when active, else 0.
    [now] is the current clock in nanoseconds; [None] is a nil routine. *)
Definition uptime (now : Z) (r : option (routine H)) : Z :=
  match r with
  | Some r => if isActive r then Z.quot (wrap64 (now - startTime r)) Second else 0
  | None => 0
  end.

End RoutineFields.

(** ** The supervisor loop ([routine.run]) *)

(** What the loop does, in order: each call of [Update] (with its [ok] flag
    and whether it returned an error), each store into the output slice,
    each wait in the [select] (with the duration given to [time.After]), and
    the final send on [finished]. *)
Inductive act :=
  | AUpdate (ok : bool) (failed : bool)
  | AWrite (index : nat) (s : string)
  | AWait (d : Z)
  | AFinished.

(** Which case of the [select] fires: a token on [updateChan], a token on
    [stopChan], or the timer. The other goroutines and the clock are an
    oracle indexed by the iteration number, as is the time spent in the
    iteration before the [select] ([time.Since(start)]). *)
Inductive wake := WRefresh | WStop | WTimeout.

Record env := mkEnv {
  elapsed : nat -> Z;
  waker : nat -> wake
}.

(** The cool-down interval after an error, from the configured interval. *)
Definition backoff (iv : Z) : Z :=
  let seconds := Z.quot iv Second in
  if (seconds <? 60)%Z then 5 * Second
  else if (seconds <? 60 * 15)%Z then 60 * Second
  else 60 * 5 * Second.

Section Run.
Context {H : Type} `{RoutineHandler H}.
Variable index : nat.

(** One pass of the [for] loop. The boolean says whether the loop goes on.
    The output slice is indexed in range ([index] comes from ranging over
    the routines, and the slice has one slot per routine). *)
Definition iteration (k : nat) (e : env) (r : routine H) (outs : list string)
    : list act * routine H * list string * bool :=
  let '(h', ok, err) := rh_Update (handler r) in
  let output := match err with None => rh_String h' | Some _ => rh_Error h' end in
  let outs' := <[index := output]> outs in
  let r1 := set_handler r h' in
  let pre := [AUpdate ok (bool_decide (is_Some err)); AWrite index output] in
  if negb ok then (pre, r1, outs', false)
  else if (intervalTime r1 =? 0)%Z then (pre, r1, outs', false)
  else
    let iv := match err with None => intervalTime r1 | Some _ => backoff (intervalTime r1) end in
    let d := wrap64 (iv - elapsed e k) in
    let r2 := match waker e k with
              | WStop => set_active r1 false
              | _ => r1
              end in
    (pre ++ [AWait d], r2, outs', isActive r2).

(** [fuel] iterations at most; the last component says whether the routine
    sent itself on [finished]. *)
Fixpoint loop (fuel k : nat) (e : env) (r : routine H) (outs : list string)
    : list act * routine H * list string * bool :=
  match fuel with
  | O => ([], r, outs, false)
  | S f =>
      let '(acts, r', outs', cont) := iteration k e r outs in
      if cont then
        let '(acts2, r'', outs'', fin) := loop f (S k) e r' outs' in
        (acts ++ acts2, r'', outs'', fin)
      else (acts ++ [AFinished], set_active r' false, outs', true)
  end.

(** [run]: start the uptime clock, mark active, loop. *)
Definition run (fuel : nat) (e : env) (now : Z) (r : routine H) (outs : list string)
    : list act * routine H * list string * bool :=
  loop fuel O e (set_active (set_startTime r now) true) outs.

End Run.

(** ** Go string helpers (Go strings are byte strings; [len] counts bytes) *)

Definition sappend := String.append.

(** [strings.HasSuffix]. *)
Definition hasSuffix (s suf : string) : bool :=
  let n := String.length s in
  let m := String.length suf in
  (m <=? n)%nat && String.eqb (substring (n - m) m s) suf.

(** [strings.Split(s, ".")]. *)
Fixpoint splitDot (s : string) : list string :=
  match s with
  | EmptyString => [""%string]
  | String a rest =>
      let parts := splitDot rest in
      if Ascii.eqb a "."%char then ""%string :: parts
      else match parts with
           | p :: ps => String a p :: ps
           | [] => [String a EmptyString]
           end
  end.

(** [strings.TrimPrefix(s, "*")]. *)
Definition trimStar (s : string) : string :=
  match s with
  | String a rest => if Ascii.eqb a "*"%char then rest else s
  | EmptyString => s
  end.

(** ** The statusbar object and the master output ([buildBar]) *)

Record Statusbar (H : Type) := mkStatusbar {
  routines : list (routine H);
  leftDelim : string;
  rightDelim : string;
  split : Z
}.
Arguments mkStatusbar {H}.
Arguments routines {H}.
Arguments leftDelim {H}.
Arguments rightDelim {H}.
Arguments split {H}.

(** [New]: square brackets, no split. *)
Definition New {H} : Statusbar H := mkStatusbar [] "["%string "]"%string (-1).

(** The shortening of one output longer than 60 bytes. *)
Definition shorten (s : string) : string :=
  if (60 <? String.length s)%nat then
    let hasColor := hasSuffix s "^d^" in
    sappend (sappend (substring 0 56 s) "...")
            (if hasColor then "^d^"%string else ""%string)
  else s.

(** The contents of the [strings.Builder] after the [range] over the
    outputs; [i] is the index of the first remaining output. *)
Fixpoint buildFrom (left right : string) (split : Z) (i : Z) (outs : list string)
    : string :=
  match outs with
  | [] => ""%string
  | s :: rest =>
      sappend
        (sappend
           (if (0 <? String.length s)%nat
            then sappend (sappend (sappend left (shorten s)) right) " "
            else ""%string)
           (if (i =? split)%Z then ";"%string else ""%string))
        (buildFrom left right split (i + 1) rest)
  end.

(** One tick of [buildBar]: the string handed to [setBar]. *)
Definition buildBarTick (left right : string) (split : Z) (outs : list string)
    : string :=
  let b := buildFrom left right split 0 outs in
  if (0 <? String.length b)%nat then substring 0 (String.length b - 1) b
  else "No output"%string.

(** ** Registration ([Append]) and lookup ([getRoutine]) *)

Section Registry.
Context {H : Type}.

(** [refType] is [reflect.TypeOf(handler).String()], such as
    ["*sbbattery.Routine"]. *)
Definition moduleOf (refType : string) : option string :=
  match splitDot refType with
  | [f0; _] => Some (trimStar f0)
  | _ => None
  end.

Definition Append (sb : Statusbar H) (h : H) (refType : string) (seconds : Z)
    : Statusbar H :=
  let r := setInterval (newRoutine h) seconds in
  let r := match moduleOf refType with
           | Some m => set_name r m
           | None => r
           end in
  mkStatusbar (routines sb ++ [r]) (leftDelim sb) (rightDelim sb) (split sb).

(** [getRoutine]: the first routine whose module name matches, with its
    position in the list; [None] is the "invalid routine" error. *)
Fixpoint getRoutine (rs : list (routine H)) (nm : string)
    : option (nat * routine H) :=
  match rs with
  | [] => None
  | r :: rest =>
      if String.eqb nm (name r) then Some (O, r)
      else match getRoutine rest nm with
           | Some (i, r') => Some (S i, r')
           | None => None
           end
  end.

(** ** REST handlers that signal routines *)

(** The non-blocking send [select { case ch <- struct{}{}: default: }] on a
    channel with one buffer slot: [None] when the slot is already taken. *)
Definition trySend (full : bool) : option bool :=
  if full then None else Some true.

(** The routine's side of [case <-r.updateChan]: take the pending token. *)
Definition takeUpdate (r : routine H) : option (routine H) :=
  if updateChan r then Some (set_updateChan r false) else None.

(** [HandlePutRoutine]: the HTTP status and the routines afterwards. *)
Definition HandlePutRoutine (rs : list (routine H)) (nm : string)
    : Z * list (routine H) :=
  match getRoutine rs nm with
  | None => (400, rs)
  | Some (i, r) =>
      if isActive r then
        match trySend (updateChan r) with
        | Some c => (204, <[i := set_updateChan r c]> rs)
        | None => (500, rs)
        end
      else (204, rs)
  end.

(** [HandlePutRoutineAll]: returns on the first routine whose slot is taken,
    after the sends to the routines before it. *)
Fixpoint HandlePutRoutineAll (rs : list (routine H)) : Z * list (routine H) :=
  match rs with
  | [] => (204, [])
  | r :: rest =>
      if isActive r then
        match trySend (updateChan r) with
        | Some c =>
            let '(code, rest') := HandlePutRoutineAll rest in
            (code, set_updateChan r c :: rest')
        | None => (500, r :: rest)
        end
      else
        let '(code, rest') := HandlePutRoutineAll rest in (code, r :: rest')
  end.

(** The request body of [HandlePatchRoutine]: a read error, an empty body,
    a JSON decoding error, or a decoded object with its ["interval"] key if
    present (the other [routineInfo] keys are ignored). *)
Inductive body :=
  | BodyReadErr
  | BodyEmpty
  | BodyJsonErr
  | BodyJson (interval : option Z).

Definition HandlePatchRoutine (rs : list (routine H)) (nm : string) (b : body)
    : Z * list (routine H) :=
  match getRoutine rs nm with
  | None => (400, rs)
  | Some (i, r) =>
      match b with
      | BodyReadErr | BodyEmpty | BodyJsonErr => (400, rs)
      | BodyJson iv =>
          (* The default interval is -1, meaning none was passed in. *)
          let v := default (-1) iv in
          let r1 := if (0 <=? v)%Z then setInterval r v else r in
          let rs1 := <[i := r1]> rs in
          if isActive r1 then
            match trySend (updateChan r1) with
            | Some c => (202, <[i := set_updateChan r1 c]> rs1)
            | None => (500, rs1)
            end
          else (202, rs1)
      end
  end.

End Registry.

(** ** Routine information for the REST API ([routineInfo]) *)

Record routineInfo := mkRoutineInfo {
  ri_Name : string;
  ri_Uptime : Z;
  ri_Interval : Z;
  ri_Active : bool
}.

Section Info.
Context {H : Type} `{RoutineHandler H}.

(** [active]: false for a nil routine. *)
Definition active (r : option (routine H)) : bool :=
  match r with Some r => isActive r | None => false end.

Definition displayName (r : option (routine H)) : string :=
  match r with Some r => rh_Name (handler r) | None => "Unknown"%string end.

Definition getRoutineInfo (now : Z) (r : option (routine H)) : routineInfo :=
  match r with
  | Some r' =>
      mkRoutineInfo (displayName r) (uptime now r) (interval r') (active r)
  | None => mkRoutineInfo ""%string 0 0 false
  end.

End Info.

(** ** Ownership of the output slice ([outputsChan] in [Run])

    [Run] makes the slice, sends it on [outputsChan] (buffer of one) and
    starts the goroutines. Each routine (in [run]) and the bar builder (in
    [buildBar]) take the slice from the channel, write one slot or read all
    of them, and send it back. Only these steps touch the slice; the rest of
    each goroutine's work is omitted. *)
Module Outputs.

Inductive proc := Sup (i : nat) | Agg.

Global Instance proc_eq_dec : EqDecision proc.
Proof. solve_decision. Defined.

(** Whether a goroutine currently holds the slice it received. *)
Inductive pc := Idle | Holding.

Record cfg := mkCfg {
  chanFull : bool;
  slots : list string;
  pcs : proc -> pc
}.

Definition upd (f : proc -> pc) (p : proc) (x : pc) : proc -> pc :=
  fun q => if decide (q = p) then x else f q.

Inductive label :=
  | LRecv (p : proc)
  | LWrite (i : nat) (s : string)
  | LRead (snapshot : list string)
  | LSend (p : proc).

Section Steps.
(** The number of routines, hence of slots. *)
Variable n : nat.

Definition valid (p : proc) : Prop :=
  match p with Sup i => (i < n)%nat | Agg => True end.

Inductive step : cfg -> label -> cfg -> Prop :=
  | StepRecv c p :
      valid p -> chanFull c = true -> pcs c p = Idle ->
      step c (LRecv p) (mkCfg false (slots c) (upd (pcs c) p Holding))
  (* [outputs[index] = output] *)
  | StepWrite c i s :
      (i < n)%nat -> pcs c (Sup i) = Holding ->
      step c (LWrite i s) (mkCfg (chanFull c) (<[i := s]> (slots c)) (pcs c))
  (* the [range] over the outputs in [buildBar] *)
  | StepRead c :
      pcs c Agg = Holding ->
      step c (LRead (slots c)) c
  | StepSend c p :
      pcs c p = Holding -> chanFull c = false ->
      step c (LSend p) (mkCfg true (slots c) (upd (pcs c) p Idle)).

Definition init : cfg := mkCfg true (replicate n ""%string) (fun _ => Idle).

(** Reachable configurations with the labels that led to them. *)
Inductive reach : list label -> cfg -> Prop :=
  | ReachInit : reach [] init
  | ReachStep tr c l c' : reach tr c -> step c l c' -> reach (tr ++ [l]) c'.

(** The last string routine [i] stored, [""] before its first store. *)
Definition lastWrite (i : nat) (tr : list label) : string :=
  fold_left (fun acc l => match l with
                          | LWrite j s => if decide (j = i) then s else acc
                          | _ => acc
                          end) tr ""%string.

(** The slice is either in the channel with nobody holding it, or out of
    the channel and held by exactly one goroutine. *)
Definition exclusive (c : cfg) : Prop :=
  (chanFull c = true /\ forall p, pcs c p = Idle) \/
  (chanFull c = false /\ exists p, pcs c p = Holding /\ forall q, q <> p -> pcs c q = Idle).

End Steps.
End Outputs.

(** ** Reading loop traces *)

(** The effect of one traced action on the output slice. *)
Definition applyWrite (outs : list string) (a : act) : list string :=
  match a with AWrite j s => <[j := s]> outs | _ => outs end.

Definition isUpdate (a : act) : bool :=
  match a with AUpdate _ _ => true | _ => false end.

(** The trace of iterations [k], [k+1], ... whose updates all succeed
    without error, storing the strings [ss] and waiting the interval [iv]
    minus the time spent. *)
Fixpoint steady (idx : nat) (e : env) (iv : Z) (k : nat) (ss : list string) : list act :=
  match ss with
  | [] => []
  | s :: ss' =>
      AUpdate true false :: AWrite idx s :: AWait (wrap64 (iv - elapsed e k)) ::
      steady idx e iv (S k) ss'
  end.

(** ** More of the statusbar object *)

(** [Split]: the split index is the last routine registered so far. *)
Definition Split {H} (sb : Statusbar H) : Statusbar H :=
  mkStatusbar (routines sb) (leftDelim sb) (rightDelim sb)
    (Z.of_nat (length (routines sb)) - 1).

(** A sequence of [Append] calls, each with its handler, the handler's
    [reflect.TypeOf] string and its interval in seconds. *)
Definition Appends {H} (sb : Statusbar H) (adds : list (H * string * Z)) : Statusbar H :=
  fold_left (fun sb '(h, refType, seconds) => Append sb h refType seconds) adds sb.

(** A reading of the bar without a split, to compare [buildBarTick] with:
    the non-empty outputs, each shortened and put between the delimiters,
    joined by single spaces; ["No output"] when every output is empty. *)
Definition nonEmpty (s : string) : bool := (0 <? String.length s)%nat.

Fixpoint joinSp (l : list string) : string :=
  match l with
  | [] => ""%string
  | [x] => x
  | x :: rest => sappend (sappend x " ") (joinSp rest)
  end.

Definition barNoSplit (left right : string) (outs : list string) : string :=
  match List.filter nonEmpty outs with
  | [] => "No output"%string
  | ne => joinSp (map (fun s => sappend (sappend left (shorten s)) right) ne)
  end.

(** What [buildBar] writes for one non-empty output. *)
Definition frag (left right s : string) : string :=
  sappend (sappend (sappend left (shorten s)) right) " ".

(** ** The read-only REST handlers

    The JSON body written by [encodePair] is kept as the pair (or map) it
    encodes. *)
Section Api.
Context {H : Type} `{RoutineHandler H}.

(** [HandleGetRoutineAll]: a map from module name to information, filled in
    registration order. *)
Definition HandleGetRoutineAll (now : Z) (rs : list (routine H))
    : Z * gmap string routineInfo :=
  (200, fold_left (fun infos r => <[name r := getRoutineInfo now (Some r)]> infos) rs ∅).

(** [HandleGetRoutine]: 400 for an unknown module name, else 200 with the
    routine's module name and information. *)
Definition HandleGetRoutine (now : Z) (rs : list (routine H)) (nm : string)
    : Z * option (string * routineInfo) :=
  match getRoutine rs nm with
  | None => (400, None)
  | Some (_, r) => (200, Some (name r, getRoutineInfo now (Some r)))
  end.

End Api.

(** ** The disk module (sbdisk) *)

(** [uint64] arithmetic. *)
Definition wrapU64 (z : Z) : Z := z mod 2 ^ 64.

Definition units : list ascii := ["B"; "K"; "M"; "G"; "T"; "P"; "E"]%char.

(** The [for blocks > 1024] loop of [shrink], run at most [fuel] times;
    [None] when the fuel runs out. *)
Fixpoint shrinkLoop (fuel : nat) (blocks : Z) (i : nat) : option (Z * nat) :=
  match fuel with
  | O => None
  | S f => if (1024 <? blocks)%Z then shrinkLoop f (Z.shiftr blocks 10) (S i)
           else Some (blocks, i)
  end.

(** [shrink]; [None] is the index-out-of-range panic of [units[i]] (or the
    fuel running out, which never happens for a [uint64], see below). *)
Definition shrink (blocks : Z) : option (Z * ascii) :=
  match shrinkLoop 64 blocks 0 with
  | Some (b, i) => match units !! i with Some u => Some (b, u) | None => None end
  | None => None
  end.

(** The arithmetic of [Update] for one filesystem, from the [Statfs_t] fields
    [Blocks] and [Bavail] ([uint64]) and [Bsize] ([int64], converted with
    [uint64(...)]): the used percentage, the used and the total bytes.
    [None] is the run-time panic of the integer division by a zero [total]. *)
Definition diskUsage (blocks bavail bsize : Z) : option (Z * Z * Z) :=
  let total := wrapU64 (blocks * wrapU64 bsize) in
  let used := wrapU64 (total - wrapU64 (bavail * wrapU64 bsize)) in
  if (total =? 0)%Z then None
  else Some (wrapU64 (used * 100) / total, used, total).

(** ** A scripted handler, used to run the model on concrete inputs

    Its state is the list of results [Update] still has to return; after
    the script runs out it keeps returning [(true, nil)]. *)
Definition Scripted := list (bool * option string).

Global Instance Scripted_handler : RoutineHandler Scripted := {
  rh_Update s := match s with
                 | (ok, err) :: rest => (rest, ok, err)
                 | [] => ([], true, None)
                 end;
  rh_String s := "up"%string;
  rh_Error s := "ERR"%string;
  rh_Name s := "scripted"%string
}.

(** The oracle that lets every timer fire after one second of work. *)
Definition timerEnv : env := mkEnv (fun _ => Second) (fun _ => WTimeout).

(** A routine every 2 seconds whose handler fails once with a transient
    error, then with a critical one. *)
Definition failingRoutine : routine Scripted :=
  mkRoutine [(true, Some "timeout"%string); (false, Some "gone"%string)]
    "" false (2 * Second) 0 false false.

(** A routine with interval zero, as [Append] leaves it for [seconds = 0]. *)
Definition onceRoutine : routine Scripted := setInterval (newRoutine []) 0.

(** A running routine every 2 minutes whose next update fails transiently. *)
Definition erroringRoutine : routine Scripted :=
  mkRoutine [(true, Some "timeout"%string)] "" true (120 * Second) 0 false false.

(** One routine storing ["x"], then the bar builder reading the slice. *)
Definition sliceTrace : list Outputs.label :=
  [Outputs.LRecv (Outputs.Sup 0); Outputs.LWrite 0 "x"; Outputs.LSend (Outputs.Sup 0);
   Outputs.LRecv Outputs.Agg; Outputs.LRead ["x"%string]].

Definition sliceCfg : Outputs.cfg :=
  Outputs.mkCfg false ["x"%string]
    (Outputs.upd (Outputs.upd (Outputs.upd (fun _ => Outputs.Idle)
       (Outputs.Sup 0) Outputs.Holding) (Outputs.Sup 0) Outputs.Idle)
       Outputs.Agg Outputs.Holding).

(** A running disk routine every 30 seconds, registered as ["sbdisk"]. *)
Definition diskRoutine : routine Scripted :=
  mkRoutine [] "sbdisk" true (30 * Second) 0 false false.

(** A routine every 2 seconds whose handler always succeeds. *)
Definition steadyRoutine : routine Scripted :=
  mkRoutine [] "" false (2 * Second) 0 false false.

(** The oracle where a stop token is taken in the third [select]. *)
Definition stopEnv : env :=
  mkEnv (fun _ => Second) (fun k => if Nat.eqb k 2 then WStop else WTimeout).

(** * Properties *)

(** ** The supervisor loop *)

Lemma iteration_shape {H} `{RoutineHandler H} index k e (r : routine H) outs acts r' outs' cont :
  iteration index k e r outs = (acts, r', outs', cont) ->
  exists ok f s rest,
    acts = AUpdate ok f :: AWrite index s :: rest /\
    outs' = <[index := s]> outs /\
    (ok = false -> rest = [] /\ cont = false) /\
    (cont = false -> isActive r' = isActive r \/ isActive r' = false) /\
    (rest = [] \/ exists d, rest = [AWait d]).
Proof.
  unfold iteration.
  destruct (rh_Update (handler r)) as [[h' ok] err].
  destruct ok; simpl.
  - destruct (intervalTime r =? 0); simpl.
    + intros Heq; inversion Heq; subst.
      do 4 eexists; split; [reflexivity|].
      repeat split; try discriminate; auto.
    + destruct (waker e k); intros Heq; inversion Heq; subst;
        do 4 eexists; (split; [reflexivity|]);
        repeat split; try discriminate; eauto.
  - intros Heq; inversion Heq; subst.
    do 4 eexists; split; [reflexivity|].
    repeat split; auto.
Qed.

Lemma app_split_not_in (l1 l2 pre post : list act) x :
  ~ In x l1 -> l1 ++ l2 = pre ++ x :: post ->
  exists pre', pre = l1 ++ pre' /\ l2 = pre' ++ x :: post.
Proof.
  revert pre. induction l1 as [|a l1 IH]; intros pre Hin Heq.
  - exists pre. auto.
  - destruct pre as [|y pre]; simpl in Heq; inversion Heq; subst.
    + exfalso. apply Hin. left. reflexivity.
    + destruct (IH pre) as [pre' [-> ->]]; [intros Hx; apply Hin; right; exact Hx | assumption |].
      exists pre'. auto.
Qed.

Lemma loop_after_not_ok {H} `{RoutineHandler H} index fuel k e (r : routine H) outs
    acts r' outs' fin pre f post :
  (index < length outs)%nat ->
  loop index fuel k e r outs = (acts, r', outs', fin) ->
  acts = pre ++ AUpdate false f :: post ->
  exists s, post = [AWrite index s; AFinished] /\ outs' !! index = Some s /\
            fin = true /\ isActive r' = false.
Proof.
  revert k r outs acts r' outs' fin pre.
  induction fuel as [|fuel IH]; intros k r outs acts r' outs' fin pre Hlen Hloop Hacts; simpl in Hloop.
  - inversion Hloop; subst. destruct pre; discriminate.
  - destruct (iteration index k e r outs) as [[[acts1 r1] outs1] cont] eqn:Hit.
    destruct (iteration_shape _ _ _ _ _ _ _ _ _ Hit)
      as (ok & f1 & s & rest & -> & -> & Hok & _ & Hrest).
    destruct cont.
    + destruct (loop index fuel (S k) e r1 (<[index:=s]> outs)) as [[[acts2 r2] outs2] fin2] eqn:Hl.
      injection Hloop as <- <- <- <-.
      destruct ok; [|destruct (Hok eq_refl); discriminate].
      destruct (app_split_not_in (AUpdate true f1 :: AWrite index s :: rest) acts2 pre post
                  (AUpdate false f)) as [pre' [_ Hpre']].
      { destruct Hrest as [->|[d ->]]; simpl; intuition discriminate. }
      { exact Hacts. }
      eapply IH; [| exact Hl | exact Hpre'].
      rewrite length_insert. exact Hlen.
    + injection Hloop as <- <- <- <-.
      destruct ok.
      * exfalso.
        assert (Hin : In (AUpdate false f) (pre ++ AUpdate false f :: post))
          by (apply in_or_app; right; left; reflexivity).
        rewrite <- Hacts in Hin.
        destruct Hrest as [->|[d ->]]; simpl in Hin; intuition discriminate.
      * destruct (Hok eq_refl) as [-> _].
        simpl in Hacts.
        destruct pre as [|a pre]; simpl in Hacts.
        -- injection Hacts as _ <-.
           exists s. repeat split; auto.
           apply list_lookup_insert_eq. exact Hlen.
        -- injection Hacts as _ Hacts.
           destruct pre as [|b pre]; simpl in Hacts; [discriminate|].
           injection Hacts as _ Hacts.
           destruct pre as [|c pre]; simpl in Hacts; [discriminate|].
           injection Hacts as _ Hacts. destruct pre; discriminate.
Qed.

(** C1: once [Update] returns [ok = false], the routine makes no further
    call to [Update]: the only things left are storing that iteration's
    (error) output in its slot and sending itself on [finished]; it ends
    inactive. *)
Theorem run_stops_after_not_ok {H} `{RoutineHandler H} index fuel e now (r : routine H) outs
    acts r' outs' fin pre f post :
  (index < length outs)%nat ->
  run index fuel e now r outs = (acts, r', outs', fin) ->
  acts = pre ++ AUpdate false f :: post ->
  exists s, post = [AWrite index s; AFinished] /\ outs' !! index = Some s /\
            fin = true /\ isActive r' = false.
Proof.
  unfold run. apply loop_after_not_ok.
Qed.

(** C2: a routine whose interval is zero calls [Update] once, stores the
    output in its slot, and finishes without any wait in the [select],
    whatever the other goroutines and the clock do. *)
Theorem run_once_when_interval_zero {H} `{RoutineHandler H} index fuel e now
    (r : routine H) outs acts r' outs' fin :
  intervalTime r = 0 ->
  run index (S fuel) e now r outs = (acts, r', outs', fin) ->
  exists ok f s, acts = [AUpdate ok f; AWrite index s; AFinished] /\
                 outs' = <[index := s]> outs /\ fin = true /\ isActive r' = false.
Proof.
  intros Hiv. unfold run. simpl. unfold iteration.
  destruct (rh_Update (handler (set_active (set_startTime r now) true))) as [[h' ok] err].
  simpl. rewrite Hiv. simpl.
  destruct ok; simpl; intros Heq; injection Heq as <- <- <- <-;
    do 3 eexists; repeat split.
Qed.

Lemma quot_Second_ltb (iv c : Z) :
  0 < c -> (Z.quot iv Second <? c) = (iv <? c * Second).
Proof.
  intros Hc. unfold Second.
  destruct (Z.le_gt_cases 0 iv) as [Hnn|Hneg].
  - rewrite Z.quot_div_nonneg by lia.
    apply Bool.eq_true_iff_eq. rewrite !Z.ltb_lt. split; intros Hlt.
    + destruct (Z.lt_ge_cases iv (c * 1000000000)) as [|Hge]; [assumption|].
      assert (c <= iv / 1000000000) by (apply Z.div_le_lower_bound; lia). lia.
    + apply Z.div_lt_upper_bound; lia.
  - replace iv with (- (- iv)) by lia.
    rewrite Z.quot_opp_l by lia.
    rewrite Z.quot_div_nonneg by lia.
    assert (0 <= (- iv) / 1000000000) by (apply Z.div_pos; lia).
    apply Bool.eq_true_iff_eq. rewrite !Z.ltb_lt. split; intros; lia.
Qed.

Lemma backoff_tiers (iv : Z) :
  backoff iv = if iv <? 60 * Second then 5 * Second
               else if iv <? 900 * Second then 60 * Second
               else 300 * Second.
Proof.
  unfold backoff.
  rewrite (quot_Second_ltb iv 60) by lia.
  rewrite (quot_Second_ltb iv (60 * 15)) by lia.
  reflexivity.
Qed.

(** C3: in an iteration where [Update] returns an error with [ok = true]
    and the interval is not zero, the wait is computed from a cool-down
    that depends only on the configured interval: 5 s below 60 s, 60 s
    below 900 s, 300 s otherwise (minus the time the iteration took). *)
Theorem iteration_error_backoff {H} `{RoutineHandler H} index k e (r : routine H) outs
    h' m acts r' outs' cont :
  rh_Update (handler r) = (h', true, Some m) ->
  intervalTime r <> 0 ->
  iteration index k e r outs = (acts, r', outs', cont) ->
  exists d, acts = [AUpdate true true; AWrite index (rh_Error h'); AWait d] /\
    (intervalTime r < 60 * Second -> d = wrap64 (5 * Second - elapsed e k)) /\
    (60 * Second <= intervalTime r < 900 * Second ->
       d = wrap64 (60 * Second - elapsed e k)) /\
    (900 * Second <= intervalTime r -> d = wrap64 (300 * Second - elapsed e k)).
Proof.
  intros Hup Hiv. unfold iteration. rewrite Hup. simpl.
  replace (intervalTime r =? 0) with false by (symmetry; apply Z.eqb_neq; exact Hiv).
  rewrite backoff_tiers.
  intros Heq.
  eexists. split.
  - destruct (waker e k); injection Heq as <- _ _ _; reflexivity.
  - repeat split; intros Hb.
    + apply Z.ltb_lt in Hb. rewrite Hb. reflexivity.
    + replace (intervalTime r <? 60 * Second) with false by (symmetry; apply Z.ltb_ge; lia).
      replace (intervalTime r <? 900 * Second) with true by (symmetry; apply Z.ltb_lt; lia).
      reflexivity.
    + replace (intervalTime r <? 60 * Second) with false by (symmetry; apply Z.ltb_ge; unfold Second in *; lia).
      replace (intervalTime r <? 900 * Second) with false by (symmetry; apply Z.ltb_ge; lia).
      reflexivity.
Qed.

(** ** Uptime *)

(** C10: a nil, stopped or not yet started routine reports an uptime of 0,
    both from [uptime] and in the [routineInfo] of the REST API. *)
Theorem uptime_inactive_zero {H} `{RoutineHandler H} now (r : option (routine H)) :
  active r = false ->
  uptime now r = 0 /\ ri_Uptime (getRoutineInfo now r) = 0.
Proof.
  destruct r as [r|]; simpl; [intros ->|]; auto.
Qed.

(** ** The master output *)

Lemma length_sappend (a b : string) :
  String.length (sappend a b) = (String.length a + String.length b)%nat.
Proof. induction a as [|c a IH]; simpl; auto. Qed.

Lemma substring_0_length (s : string) : substring 0 (String.length s) s = s.
Proof. induction s as [|c s IH]; simpl; [reflexivity | rewrite IH; reflexivity]. Qed.

Lemma substring_sappend_r (a b : string) :
  substring (String.length a) (String.length b) (sappend a b) = b.
Proof.
  induction a as [|c a IH]; simpl.
  - destruct b; simpl; [reflexivity|]. rewrite substring_0_length. reflexivity.
  - exact IH.
Qed.

Lemma hasSuffix_sappend (a b : string) : hasSuffix (sappend a b) b = true.
Proof.
  unfold hasSuffix. rewrite length_sappend.
  replace (String.length a + String.length b - String.length b)%nat
    with (String.length a) by lia.
  rewrite substring_sappend_r, String.eqb_refl.
  apply andb_true_intro. split; [apply Nat.leb_le; lia | reflexivity].
Qed.

Lemma length_substring_0 (m : nat) (s : string) :
  (m <= String.length s)%nat -> String.length (substring 0 m s) = m.
Proof.
  revert s. induction m as [|m IH]; intros s Hm; [destruct s; reflexivity|].
  destruct s as [|c s]; simpl in *; [lia|].
  rewrite IH by lia. reflexivity.
Qed.

(** A 61-byte output without a color terminator. *)
Definition long61 : string :=
  "abcdefghijabcdefghijabcdefghijabcdefghijabcdefghijabcdefghijX".

(** C5 (as stated, refuted): a 61-byte slot is not cut to the 60-byte
    budget followed by an ellipsis; the bar shows its first 56 bytes and
    ["..."]. *)
Lemma buildBar_truncation_counterexample :
  buildBarTick "["%string "]"%string (-1) [long61] =
    sappend (sappend "["%string (sappend (substring 0 56 long61) "..."%string)) "]"%string /\
  buildBarTick "["%string "]"%string (-1) [long61] <>
    sappend (sappend "["%string (sappend (substring 0 60 long61) "..."%string)) "]"%string.
Proof.
  split; [vm_compute; reflexivity|].
  vm_compute. intros Heq. discriminate Heq.
Qed.

(** C5 (amended): a non-empty slot of at most 60 bytes is written between
    the delimiters unchanged; a longer one is replaced by its first 56
    bytes, ["..."] and, when the original ends with the color terminator
    ["^d^"], that terminator again (59 or 62 bytes, still ending in
    ["^d^"] when the original did). *)
Theorem buildBar_slot_shortening (left right : string) (split i : Z) (s : string)
    (rest : list string) :
  (0 < String.length s)%nat ->
  exists t,
    buildFrom left right split i (s :: rest) =
      sappend (sappend (sappend (sappend (sappend left t) right) " "%string)
                       (if (i =? split)%Z then ";"%string else ""%string))
              (buildFrom left right split (i + 1) rest) /\
    ((String.length s <= 60)%nat -> t = s) /\
    ((60 < String.length s)%nat ->
       t = sappend (sappend (substring 0 56 s) "..."%string)
                   (if hasSuffix s "^d^" then "^d^"%string else ""%string) /\
       String.length t = (if hasSuffix s "^d^" then 62 else 59)%nat /\
       (hasSuffix s "^d^" = true -> hasSuffix t "^d^" = true)).
Proof.
  intros Hne. exists (shorten s). split.
  - simpl. apply Nat.ltb_lt in Hne. rewrite Hne. reflexivity.
  - split.
    + intros Hle. unfold shorten.
      replace (60 <? String.length s)%nat with false by (symmetry; apply Nat.ltb_ge; lia).
      reflexivity.
    + intros Hgt. unfold shorten.
      replace (60 <? String.length s)%nat with true by (symmetry; apply Nat.ltb_lt; lia).
      split; [reflexivity|]. split.
      * rewrite !length_sappend, length_substring_0 by lia.
        destruct (hasSuffix s "^d^"); reflexivity.
      * intros ->. apply hasSuffix_sappend.
Qed.

Lemma buildFrom_all_empty (left right : string) (split i : Z) (n : nat) :
  buildFrom left right split i (replicate n ""%string) =
    if (i <=? split) && (split <? i + Z.of_nat n) then ";"%string else ""%string.
Proof.
  revert i. induction n as [|n IH]; intros i; simpl.
  - change (Z.of_nat 0) with 0. rewrite Z.add_0_r.
    destruct (i <=? split) eqn:E1, (split <? i) eqn:E2; simpl; try reflexivity.
    rewrite Z.leb_le in E1. rewrite Z.ltb_lt in E2. lia.
  - rewrite IH, Nat2Z.inj_succ. simpl.
    destruct (i =? split) eqn:E0, (i + 1 <=? split) eqn:E1,
      (split <? i + 1 + Z.of_nat n) eqn:E2, (i <=? split) eqn:E3,
      (split <? i + Z.succ (Z.of_nat n)) eqn:E4; simpl; try reflexivity;
      rewrite ?Z.eqb_eq, ?Z.eqb_neq, ?Z.leb_le, ?Z.leb_gt, ?Z.ltb_lt, ?Z.ltb_ge in *;
      lia.
Qed.

(** C6 (defect): when every slot is empty and the split index falls on one
    of the routines, the builder holds only the split marker [";"], the
    "remove last space" step strips it, and the bar is set to the empty
    string instead of ["No output"]. With the split on the last routine
    and that slot non-empty, the trailing space stays and the marker is
    dropped. *)
Theorem buildBar_all_empty_with_split (left right : string) (n : nat) (split : Z) :
  0 <= split < Z.of_nat n ->
  buildBarTick left right split (replicate n ""%string) = ""%string /\
  buildBarTick "["%string "]"%string 1 ["a"%string; "b"%string] = "[a] [b] "%string.
Proof.
  intros Hs. split; [|vm_compute; reflexivity].
  unfold buildBarTick. rewrite buildFrom_all_empty.
  replace ((0 <=? split) && (split <? 0 + Z.of_nat n)) with true
    by (symmetry; apply andb_true_intro; split; [apply Z.leb_le | apply Z.ltb_lt]; lia).
  reflexivity.
Qed.

(** ** Registration and lookup *)

Lemma getRoutine_Some {H} (rs : list (routine H)) nm i r :
  getRoutine rs nm = Some (i, r) ->
  rs !! i = Some r /\ name r = nm /\
  (forall j r', (j < i)%nat -> rs !! j = Some r' -> name r' <> nm).
Proof.
  revert i. induction rs as [|r0 rs IH]; intros i Hg; simpl in Hg; [discriminate|].
  destruct (String.eqb nm (name r0)) eqn:Heq.
  - injection Hg as <- <-. apply String.eqb_eq in Heq.
    split; [reflexivity|]. split; [symmetry; exact Heq|]. intros j r' Hj. lia.
  - destruct (getRoutine rs nm) as [[i' r']|] eqn:Hg'; [|discriminate].
    injection Hg as <- <-.
    destruct (IH i' eq_refl) as (Hl & Hn & Hb).
    split; [exact Hl|]. split; [exact Hn|].
    intros [|j] r'' Hj Hl'; simpl in Hl'.
    + injection Hl' as <-. intros Hn'. rewrite <- Hn' in Heq.
      rewrite String.eqb_refl in Heq. discriminate.
    + apply (Hb j); [lia | exact Hl'].
Qed.

Lemma getRoutine_None {H} (rs : list (routine H)) nm :
  getRoutine rs nm = None -> forall r, In r rs -> name r <> nm.
Proof.
  induction rs as [|r0 rs IH]; simpl; intros Hg r Hin; [contradiction|].
  destruct (String.eqb nm (name r0)) eqn:Heq; [discriminate|].
  destruct (getRoutine rs nm) as [[i' r']|]; [discriminate|].
  destruct Hin as [<-|Hin].
  - intros Hn. rewrite <- Hn in Heq. rewrite String.eqb_refl in Heq. discriminate.
  - apply IH; auto.
Qed.

Lemma getRoutine_insert {H} (rs : list (routine H)) nm i r r' :
  getRoutine rs nm = Some (i, r) -> name r' = name r ->
  getRoutine (<[i := r']> rs) nm = Some (i, r').
Proof.
  revert i. induction rs as [|r0 rs IH]; intros i Hg Hn; simpl in Hg; [discriminate|].
  destruct (String.eqb nm (name r0)) eqn:Heq.
  - injection Hg as <- <-. simpl. rewrite Hn, Heq. reflexivity.
  - destruct (getRoutine rs nm) as [[i' r'']|] eqn:Hg'; [|discriminate].
    injection Hg as <- <-. simpl. rewrite Heq, (IH i' eq_refl Hn). reflexivity.
Qed.

(** Two handlers from the same package. *)
Definition twoWeather : Statusbar Scripted :=
  Append (Append New [] "*sbweather.Routine" 60) [] "*sbweather.Routine" 300.

(** C8 (as stated, refuted): registering two handlers of the same package
    gives two routines with the same module name. *)
Lemma append_duplicate_moduleID :
  map name (routines twoWeather) = ["sbweather"%string; "sbweather"%string] /\
  ~ NoDup (map name (routines twoWeather)).
Proof.
  assert (Hm : map name (routines twoWeather) = ["sbweather"%string; "sbweather"%string])
    by (vm_compute; reflexivity).
  split; [exact Hm|]. rewrite Hm.
  intros Hnd. inversion Hnd as [|x l Hnotin Hnd' Hx]. apply Hnotin. constructor.
Qed.

(** C8 (amended): [Append] adds the routine at the end, named after the
    package of the handler's type (empty when it cannot be determined),
    without any check against the names already present; [getRoutine]
    returns the first routine, in registration order, with the requested
    name, and fails only when none has it. *)
Theorem append_moduleID_first_match {H} (sb : Statusbar H) h refType seconds
    (rs : list (routine H)) nm :
  (exists r, routines (Append sb h refType seconds) = routines sb ++ [r] /\
             name r = default ""%string (moduleOf refType) /\
             intervalTime r = wrap64 (seconds * Second) /\ isActive r = false) /\
  match getRoutine rs nm with
  | Some (i, r) => rs !! i = Some r /\ name r = nm /\
      (forall j r', (j < i)%nat -> rs !! j = Some r' -> name r' <> nm)
  | None => forall r, In r rs -> name r <> nm
  end.
Proof.
  split.
  - unfold Append. destruct (moduleOf refType) as [m|]; simpl; eexists; repeat split.
  - destruct (getRoutine rs nm) as [[i r]|] eqn:Hg.
    + apply getRoutine_Some; exact Hg.
    + apply getRoutine_None; exact Hg.
Qed.

(** ** Refreshing routines *)

Lemma HandlePutRoutineAll_code {H} (rs : list (routine H)) :
  (fst (HandlePutRoutineAll rs) = 204 <->
     Forall (fun r => isActive r = true -> updateChan r = false) rs) /\
  (fst (HandlePutRoutineAll rs) = 204 \/ fst (HandlePutRoutineAll rs) = 500).
Proof.
  induction rs as [|r rs [IH1 IH2]]; simpl.
  - split; [split; auto | left; reflexivity].
  - destruct (isActive r) eqn:Ha.
    + destruct (updateChan r) eqn:Hu; simpl.
      * split; [|right; reflexivity]. split; [discriminate|].
        intros Hf. inversion Hf as [|? ? Hr]. rewrite (Hr Ha) in Hu. discriminate.
      * destruct (HandlePutRoutineAll rs) as [code rest'] eqn:Hp. simpl in *.
        split; [|exact IH2]. rewrite IH1. split.
        -- intros Hf. constructor; [intros; exact Hu | exact Hf].
        -- intros Hf. inversion Hf. assumption.
    + destruct (HandlePutRoutineAll rs) as [code rest'] eqn:Hp. simpl in *.
      split; [|exact IH2]. rewrite IH1. split.
      * intros Hf. constructor; [intros Hx; rewrite Ha in Hx; discriminate | exact Hf].
      * intros Hf. inversion Hf. assumption.
Qed.

(** C4: a refresh of an active routine never blocks: with its update slot
    free the request is accepted (204) and fills the slot; with a refresh
    already pending it fails with 500 and changes nothing. Two requests in
    a row leave exactly one pending token, so the routine wakes early at
    most once. A refresh of all routines succeeds exactly when no active
    routine has a refresh pending, and otherwise fails with 500. *)
Theorem refresh_nonblocking_coalesced {H} (rs : list (routine H)) nm i r :
  getRoutine rs nm = Some (i, r) -> isActive r = true ->
  (updateChan r = false ->
     HandlePutRoutine rs nm = (204, <[i := set_updateChan r true]> rs)) /\
  (updateChan r = true -> HandlePutRoutine rs nm = (500, rs)) /\
  (let rs1 := snd (HandlePutRoutine rs nm) in
   HandlePutRoutine rs1 nm = (500, rs1) /\
   exists r2, rs1 !! i = Some r2 /\ updateChan r2 = true /\
     exists r3, takeUpdate r2 = Some r3 /\ takeUpdate r3 = None) /\
  (fst (HandlePutRoutineAll rs) = 204 <->
     Forall (fun r => isActive r = true -> updateChan r = false) rs) /\
  (fst (HandlePutRoutineAll rs) = 204 \/ fst (HandlePutRoutineAll rs) = 500).
Proof.
  intros Hg Ha.
  destruct (getRoutine_Some rs nm i r Hg) as (Hl & _ & _).
  assert (Hlen : (i < length rs)%nat) by (eapply lookup_lt_Some; exact Hl).
  unfold HandlePutRoutine. rewrite Hg, Ha.
  split; [intros Hu; rewrite Hu; reflexivity|].
  split; [intros Hu; rewrite Hu; reflexivity|].
  split; [|apply HandlePutRoutineAll_code].
  destruct (updateChan r) eqn:Hu; simpl.
  - rewrite Hg, Ha, Hu. split; [reflexivity|].
    exists r. split; [exact Hl|]. split; [exact Hu|].
    eexists. unfold takeUpdate. rewrite Hu. split; reflexivity.
  - rewrite (getRoutine_insert rs nm i r (set_updateChan r true) Hg eq_refl). simpl.
    rewrite Ha. split; [reflexivity|].
    exists (set_updateChan r true). split; [apply list_lookup_insert_eq; exact Hlen|].
    split; [reflexivity|].
    eexists. split; reflexivity.
Qed.

(** ** Changing the interval *)

(** An active routine named ["sbfan"] running every 5 seconds. *)
Definition fanRoutine : routine Scripted :=
  mkRoutine [] "sbfan" true (5 * Second) 0 false false.

(** C7 (as stated, refuted): a negative interval is not rejected; the
    request is accepted (202), the interval stays 5 seconds, and a refresh
    is sent. *)
Lemma patch_negative_interval_accepted :
  HandlePatchRoutine [fanRoutine] "sbfan" (BodyJson (Some (-3))) =
    (202, [set_updateChan fanRoutine true]) /\
  intervalTime (set_updateChan fanRoutine true) = 5 * Second.
Proof. split; reflexivity. Qed.

(** C7 (amended): an unknown module name, an unreadable, empty or
    malformed body all give 400 with no change. Otherwise a non-negative
    ["interval"] replaces the routine's interval and a negative or missing
    one leaves it as it was, without an error; then an active routine gets
    a non-blocking refresh: 500 when one is already pending (the interval
    change is kept), 202 otherwise; an inactive routine gets 202 and no
    refresh. Only the interval and the refresh slot change. *)
Theorem patch_interval_behaviour {H} (rs : list (routine H)) nm b :
  (getRoutine rs nm = None -> HandlePatchRoutine rs nm b = (400, rs)) /\
  (forall i r, getRoutine rs nm = Some (i, r) ->
     (b = BodyReadErr \/ b = BodyEmpty \/ b = BodyJsonErr ->
        HandlePatchRoutine rs nm b = (400, rs)) /\
     (forall iv, b = BodyJson iv ->
        let '(code, rs') := HandlePatchRoutine rs nm b in
        (code = 500 <-> isActive r = true /\ updateChan r = true) /\
        (code <> 500 -> code = 202) /\
        exists r', rs' = <[i := r']> rs /\ name r' = name r /\
          handler r' = handler r /\ isActive r' = isActive r /\
          startTime r' = startTime r /\ stopChan r' = stopChan r /\
          intervalTime r' = match iv with
                            | Some v => if 0 <=? v then wrap64 (v * Second)
                                        else intervalTime r
                            | None => intervalTime r
                            end /\
          updateChan r' = (updateChan r || isActive r))).
Proof.
  split.
  - intros Hg. unfold HandlePatchRoutine. rewrite Hg. reflexivity.
  - intros i r Hg. split.
    + intros [ -> | [ -> | -> ] ]; unfold HandlePatchRoutine; rewrite Hg; reflexivity.
    + intros iv ->. unfold HandlePatchRoutine. rewrite Hg.
      set (r1 := if 0 <=? default (-1) iv then setInterval r (default (-1) iv) else r).
      assert (Hr1 : isActive r1 = isActive r /\ updateChan r1 = updateChan r /\
                    name r1 = name r /\ handler r1 = handler r /\
                    startTime r1 = startTime r /\ stopChan r1 = stopChan r /\
                    intervalTime r1 = match iv with
                            | Some v => if 0 <=? v then wrap64 (v * Second)
                                        else intervalTime r
                            | None => intervalTime r
                            end).
      { subst r1. destruct iv as [v|]; simpl.
        - destruct (0 <=? v); repeat split.
        - repeat split. }
      destruct Hr1 as (Ha & Hu & Hn & Hh & Hs & Hst & Hi).
      rewrite Ha. destruct (isActive r) eqn:Har.
      * unfold trySend. rewrite Hu. destruct (updateChan r) eqn:Hur.
        -- split; [split; auto|]. split; [intros Hc; exfalso; apply Hc; reflexivity|].
           exists r1. repeat split; rewrite ?Hu, ?orb_false_r; auto.
        -- split; [split; [discriminate | intros [_ Hf]; discriminate]|].
           split; [intros; reflexivity|].
           exists (set_updateChan r1 true).
           rewrite list_insert_insert_eq. repeat split; auto.
      * split; [split; [discriminate | intros [Hf _]; discriminate]|].
        split; [intros; reflexivity|].
        exists r1. repeat split; rewrite ?Hu, ?orb_false_r; auto.
Qed.

(** ** Ownership of the output slice *)

Module OutputsFacts.
Import Outputs.

Lemma lastWrite_snoc i tr l :
  lastWrite i (tr ++ [l]) =
    match l with
    | LWrite j s => if decide (j = i) then s else lastWrite i tr
    | _ => lastWrite i tr
    end.
Proof. unfold lastWrite. rewrite fold_left_app. reflexivity. Qed.

Lemma reach_invariant n tr c :
  reach n tr c ->
  exclusive c /\ length (slots c) = n /\
  (forall i, (i < n)%nat -> slots c !! i = Some (lastWrite i tr)).
Proof.
  induction 1 as [|tr c l c' Hr IH Hs].
  - split; [left; split; reflexivity|]. simpl.
    split; [apply length_replicate|].
    intros i Hi. apply lookup_replicate_2. exact Hi.
  - destruct IH as (Hex & Hlen & Hsl).
    destruct Hs as [c p Hv Hf Hp | c i s Hi Hp | c Hp | c p Hp Hf]; unfold exclusive; cbn [chanFull pcs slots].
    + split.
      * right. split; [reflexivity|]. exists p. unfold upd.
        split; [rewrite decide_True; reflexivity|].
        intros q Hq. rewrite decide_False by exact Hq.
        destruct Hex as [[_ Hall]|[Hf' _]]; [apply Hall | congruence].
      * split; [exact Hlen|]. intros i Hi. rewrite lastWrite_snoc. apply Hsl. exact Hi.
    + split; [exact Hex|]. split; [rewrite length_insert; exact Hlen|].
      intros j Hj. rewrite lastWrite_snoc.
      destruct (decide (i = j)) as [<-|Hne].
      * apply list_lookup_insert_eq. lia.
      * rewrite list_lookup_insert_ne by exact Hne. apply Hsl. exact Hj.
    + split; [exact Hex|]. split; [exact Hlen|].
      intros i Hi. rewrite lastWrite_snoc. apply Hsl. exact Hi.
    + split.
      * left. split; [reflexivity|]. intros q. unfold upd.
        destruct (decide (q = p)) as [_|Hq]; [reflexivity|].
        destruct Hex as [[_ Hall]|[_ [p0 [Hp0 Hothers]]]].
        -- apply Hall.
        -- destruct (decide (p = p0)) as [->|Hne].
           ++ apply Hothers. exact Hq.
           ++ rewrite (Hothers p Hne) in Hp. discriminate.
      * split; [exact Hlen|]. intros i Hi. rewrite lastWrite_snoc. apply Hsl. exact Hi.
Qed.

Lemma reach_prefix n tr1 l tr2 c :
  reach n (tr1 ++ l :: tr2) c ->
  exists c1 c1', reach n tr1 c1 /\ step n c1 l c1'.
Proof.
  revert c. induction tr2 as [|x tr2 IH] using rev_ind; intros c Hr.
  - inversion Hr as [Heq|tr c0 l0 c' Hr0 Hs Heq Hc].
    + destruct tr1; discriminate.
    + apply app_inj_tail in Heq as [-> ->]. exists c0, c. auto.
  - inversion Hr as [Heq|tr c0 l0 c' Hr0 Hs Heq Hc].
    + destruct tr1; discriminate.
    + replace (tr1 ++ l :: tr2 ++ [x]) with ((tr1 ++ l :: tr2) ++ [x]) in Heq
        by (rewrite <- app_assoc; reflexivity).
      apply app_inj_tail in Heq as [Heq _]. subst tr.
      exact (IH c0 Hr0).
Qed.

(** C9: the output slice is a single token. In every reachable state at
    most one goroutine holds it, so the bar builder never holds it while a
    routine is between receiving it and sending it back; every read of the
    slots sees, in each slot, the last string its routine stored (no store
    is lost). *)
Theorem slice_token_exclusive n tr c :
  reach n tr c ->
  (pcs c Agg = Holding -> forall i, pcs c (Sup i) = Idle) /\
  (forall p q, p <> q -> pcs c p = Holding -> pcs c q = Idle) /\
  (forall tr1 snap tr2, tr = tr1 ++ LRead snap :: tr2 ->
     forall i, (i < n)%nat -> snap !! i = Some (lastWrite i tr1)).
Proof.
  intros Hr.
  destruct (reach_invariant n tr c Hr) as (Hex & _ & _).
  assert (Hmx : forall p q, p <> q -> pcs c p = Holding -> pcs c q = Idle).
  { intros p q Hpq Hp.
    destruct Hex as [[_ Hall]|[_ [p0 [Hp0 Hothers]]]].
    - rewrite Hall in Hp. discriminate.
    - destruct (decide (p = p0)) as [->|Hne].
      + apply Hothers. intros ->. apply Hpq. reflexivity.
      + rewrite (Hothers p Hne) in Hp. discriminate. }
  split; [|split; [exact Hmx|]].
  - intros Ha i. apply (Hmx Agg); [discriminate | exact Ha].
  - intros tr1 snap tr2 -> i Hi.
    destruct (reach_prefix n tr1 (LRead snap) tr2 c Hr) as (c1 & c1' & Hr1 & Hs).
    inversion Hs; subst.
    destruct (reach_invariant n tr1 _ Hr1) as (_ & _ & Hsl).
    apply Hsl. exact Hi.
Qed.

End OutputsFacts.

(** * Witnesses: the theorems with hypotheses at concrete inputs *)

Lemma run_stops_after_not_ok_witness :
  exists s,
    [AWrite 0 "ERR"%string; AFinished] = [AWrite 0 s; AFinished] /\
    (run 0 5 timerEnv 0 failingRoutine [""%string]).1.2 !! 0%nat = Some s /\
    (run 0 5 timerEnv 0 failingRoutine [""%string]).2 = true /\
    isActive (run 0 5 timerEnv 0 failingRoutine [""%string]).1.1.2 = false.
Proof.
  apply (run_stops_after_not_ok 0 5 timerEnv 0 failingRoutine [""%string]
           (run 0 5 timerEnv 0 failingRoutine [""%string]).1.1.1
           (run 0 5 timerEnv 0 failingRoutine [""%string]).1.1.2
           (run 0 5 timerEnv 0 failingRoutine [""%string]).1.2
           (run 0 5 timerEnv 0 failingRoutine [""%string]).2
           [AUpdate true true; AWrite 0 "ERR"; AWait (4 * Second)] true).
  - simpl. lia.
  - vm_compute. reflexivity.
  - vm_compute. reflexivity.
Defined.

Lemma run_once_when_interval_zero_witness :
  exists ok f s,
    (run 0 3 timerEnv 0 onceRoutine [""%string; ""%string]).1.1.1 =
      [AUpdate ok f; AWrite 0 s; AFinished] /\
    (run 0 3 timerEnv 0 onceRoutine [""%string; ""%string]).1.2 =
      <[0%nat := s]> [""%string; ""%string] /\
    (run 0 3 timerEnv 0 onceRoutine [""%string; ""%string]).2 = true /\
    isActive (run 0 3 timerEnv 0 onceRoutine [""%string; ""%string]).1.1.2 = false.
Proof.
  apply (run_once_when_interval_zero 0 2 timerEnv 0 onceRoutine [""%string; ""%string]).
  - vm_compute. reflexivity.
  - vm_compute. reflexivity.
Defined.

Lemma iteration_error_backoff_witness :
  exists d,
    (iteration 0 0 timerEnv erroringRoutine [""%string]).1.1.1 =
      [AUpdate true true; AWrite 0 (rh_Error []); AWait d] /\
    (intervalTime erroringRoutine < 60 * Second -> d = wrap64 (5 * Second - Second)) /\
    (60 * Second <= intervalTime erroringRoutine < 900 * Second ->
       d = wrap64 (60 * Second - Second)) /\
    (900 * Second <= intervalTime erroringRoutine -> d = wrap64 (300 * Second - Second)).
Proof.
  apply (iteration_error_backoff 0 0 timerEnv erroringRoutine [""%string] [] "timeout"%string
           (iteration 0 0 timerEnv erroringRoutine [""%string]).1.1.1
           (iteration 0 0 timerEnv erroringRoutine [""%string]).1.1.2
           (iteration 0 0 timerEnv erroringRoutine [""%string]).1.2
           (iteration 0 0 timerEnv erroringRoutine [""%string]).2).
  - reflexivity.
  - vm_compute. discriminate.
  - vm_compute. reflexivity.
Defined.

Lemma uptime_inactive_zero_witness :
  uptime 5 (Some onceRoutine) = 0 /\ ri_Uptime (getRoutineInfo 5 (Some onceRoutine)) = 0.
Proof.
  apply (uptime_inactive_zero 5 (Some onceRoutine)). reflexivity.
Defined.

Lemma buildBar_all_empty_with_split_witness :
  buildBarTick "["%string "]"%string 0 (replicate 2 ""%string) = ""%string /\
  buildBarTick "["%string "]"%string 1 ["a"%string; "b"%string] = "[a] [b] "%string.
Proof.
  apply (buildBar_all_empty_with_split "[" "]" 2 0). simpl. lia.
Defined.

Lemma refresh_nonblocking_coalesced_witness :
  (updateChan fanRoutine = false ->
     HandlePutRoutine [fanRoutine] "sbfan" =
       (204, <[0%nat := set_updateChan fanRoutine true]> [fanRoutine])) /\
  (updateChan fanRoutine = true -> HandlePutRoutine [fanRoutine] "sbfan" = (500, [fanRoutine])) /\
  (let rs1 := snd (HandlePutRoutine [fanRoutine] "sbfan") in
   HandlePutRoutine rs1 "sbfan" = (500, rs1) /\
   exists r2, rs1 !! 0%nat = Some r2 /\ updateChan r2 = true /\
     exists r3, takeUpdate r2 = Some r3 /\ takeUpdate r3 = None) /\
  (fst (HandlePutRoutineAll [fanRoutine]) = 204 <->
     Forall (fun r => isActive r = true -> updateChan r = false) [fanRoutine]) /\
  (fst (HandlePutRoutineAll [fanRoutine]) = 204 \/
   fst (HandlePutRoutineAll [fanRoutine]) = 500).
Proof.
  apply (refresh_nonblocking_coalesced [fanRoutine] "sbfan" 0 fanRoutine).
  - reflexivity.
  - reflexivity.
Defined.

Lemma slice_token_exclusive_witness :
  (Outputs.pcs sliceCfg Outputs.Agg = Outputs.Holding ->
     forall i, Outputs.pcs sliceCfg (Outputs.Sup i) = Outputs.Idle) /\
  (forall p q, p <> q -> Outputs.pcs sliceCfg p = Outputs.Holding ->
     Outputs.pcs sliceCfg q = Outputs.Idle) /\
  (forall tr1 snap tr2, sliceTrace = tr1 ++ Outputs.LRead snap :: tr2 ->
     forall i, (i < 1)%nat -> snap !! i = Some (Outputs.lastWrite i tr1)).
Proof.
  apply (OutputsFacts.slice_token_exclusive 1 sliceTrace sliceCfg).
  change sliceTrace with
    (((([] ++ [Outputs.LRecv (Outputs.Sup 0)]) ++ [Outputs.LWrite 0 "x"])
        ++ [Outputs.LSend (Outputs.Sup 0)]) ++ [Outputs.LRecv Outputs.Agg]
        ++ [Outputs.LRead ["x"%string]]).
  rewrite app_assoc.
  eapply Outputs.ReachStep; [eapply Outputs.ReachStep;
    [eapply Outputs.ReachStep; [eapply Outputs.ReachStep;
      [eapply Outputs.ReachStep; [apply Outputs.ReachInit|]|]|]|]|].
  - apply Outputs.StepRecv; simpl; [lia | reflexivity | reflexivity].
  - apply Outputs.StepWrite; [lia | reflexivity].
  - apply Outputs.StepSend; reflexivity.
  - apply Outputs.StepRecv; simpl; [exact I | reflexivity | reflexivity].
  - apply Outputs.StepRead. reflexivity.
Defined.

Lemma buildBar_slot_shortening_witness :
  exists t,
    buildFrom "["%string "]"%string (-1) 0 (long61 :: []) =
      sappend (sappend (sappend (sappend (sappend "["%string t) "]"%string) " "%string)
                       (if (0 =? -1)%Z then ";"%string else ""%string))
              (buildFrom "["%string "]"%string (-1) (0 + 1) []) /\
    ((String.length long61 <= 60)%nat -> t = long61) /\
    ((60 < String.length long61)%nat ->
       t = sappend (sappend (substring 0 56 long61) "..."%string)
                   (if hasSuffix long61 "^d^" then "^d^"%string else ""%string) /\
       String.length t = (if hasSuffix long61 "^d^" then 62 else 59)%nat /\
       (hasSuffix long61 "^d^" = true -> hasSuffix t "^d^" = true)).
Proof.
  apply (buildBar_slot_shortening "[" "]" (-1) 0 long61 []). vm_compute. lia.
Defined.

(** * More properties of the code *)

Lemma wrap64_small (z : Z) : - 2 ^ 63 <= z < 2 ^ 63 -> wrap64 z = z.
Proof.
  intros Hz. unfold wrap64.
  destruct (Z_le_gt_dec 0 z) as [Hnn|Hneg].
  - rewrite Z.mod_small by lia. rewrite (proj2 (Z.ltb_lt _ _)) by lia. reflexivity.
  - replace (z mod 2 ^ 64) with (z + 2 ^ 64).
    + rewrite (proj2 (Z.ltb_ge _ _)) by lia. lia.
    + apply Z.mod_unique_pos with (-1); lia.
Qed.

Lemma wrap64_high (z : Z) : 2 ^ 63 <= z < 2 ^ 64 -> wrap64 z = z - 2 ^ 64.
Proof.
  intros Hz. unfold wrap64.
  rewrite Z.mod_small by lia. rewrite (proj2 (Z.ltb_ge _ _)) by lia. reflexivity.
Qed.

(** [setInterval] then [interval] gives back the number of seconds for any
    value up to 9223372036 in absolute value; from 9223372037 up to
    18446744072 seconds the int64 product wraps and [interval] reports a
    negative number. *)
Theorem interval_setInterval {H} (r : routine H) :
  (forall s, - 9223372036 <= s <= 9223372036 -> interval (setInterval r s) = s) /\
  (forall s, 9223372037 <= s <= 18446744072 -> interval (setInterval r s) < 0).
Proof.
  unfold interval, setInterval, set_intervalTime. simpl. split; intros s Hs.
  - rewrite wrap64_small by (unfold Second; lia).
    apply Z.quot_mul. unfold Second. lia.
  - rewrite wrap64_high by (unfold Second; lia). unfold Second.
    replace (s * 1000000000 - 2 ^ 64) with (- (2 ^ 64 - s * 1000000000)) by lia.
    rewrite Z.quot_opp_l by lia. rewrite Z.quot_div_nonneg by lia.
    assert (1 <= (2 ^ 64 - s * 1000000000) / 1000000000)
      by (apply Z.div_le_lower_bound; lia). lia.
Qed.

(** A PATCH of a known routine with a JSON interval [v] between 0 and
    9223372036 is seen by a following GET of the same routine: status 200,
    the routine's module name, and [v] as its interval, with name, uptime
    and active flag unchanged; this holds also when the PATCH answered 500. *)
Theorem patch_then_get_interval {H} `{RoutineHandler H} (now : Z) (rs : list (routine H))
    nm i r v :
  getRoutine rs nm = Some (i, r) -> 0 <= v <= 9223372036 ->
  HandleGetRoutine now (HandlePatchRoutine rs nm (BodyJson (Some v))).2 nm =
    (200, Some (nm, mkRoutineInfo (rh_Name (handler r)) (uptime now (Some r)) v
                      (isActive r))).
Proof.
  intros Hg Hv.
  destruct (getRoutine_Some rs nm i r Hg) as [_ [Hn _]].
  assert (Hiv : interval (setInterval r v) = v)
    by (apply (proj1 (interval_setInterval r)); lia).
  unfold HandlePatchRoutine. rewrite Hg. simpl.
  rewrite (proj2 (Z.leb_le 0 v)) by lia.
  assert (Hg1 : getRoutine (<[i := setInterval r v]> rs) nm = Some (i, setInterval r v))
    by (apply getRoutine_insert with r; [exact Hg | reflexivity]).
  unfold HandleGetRoutine.
  destruct (isActive (setInterval r v)) eqn:Ha;
    [destruct (trySend (updateChan (setInterval r v))) as [c|]|]; simpl.
  - rewrite (getRoutine_insert _ nm i (setInterval r v) (set_updateChan (setInterval r v) c)
               Hg1 eq_refl).
    simpl. rewrite Hn. unfold getRoutineInfo. simpl.
    change (interval (set_updateChan (setInterval r v) c)) with (interval (setInterval r v)).
    rewrite Hiv. reflexivity.
  - rewrite Hg1. simpl. rewrite Hn. unfold getRoutineInfo. simpl.
    rewrite Hiv. reflexivity.
  - rewrite Hg1. simpl. rewrite Hn. unfold getRoutineInfo. simpl.
    rewrite Hiv. reflexivity.
Qed.

Lemma update_then_write_cons idx ok f s (rest l2 : list act) :
  (rest = [] \/ exists d, rest = [AWait d]) ->
  (forall pre ok' f' post, l2 = pre ++ AUpdate ok' f' :: post ->
     exists s' post', post = AWrite idx s' :: post') ->
  forall pre ok' f' post,
    AUpdate ok f :: AWrite idx s :: rest ++ l2 = pre ++ AUpdate ok' f' :: post ->
    exists s' post', post = AWrite idx s' :: post'.
Proof.
  intros Hrest Hl2 pre ok' f' post Heq.
  destruct pre as [|a0 [|a1 pre]]; simpl in Heq.
  - injection Heq as _ _ <-. eauto.
  - discriminate.
  - injection Heq as _ _ Heq.
    destruct Hrest as [->|[d ->]]; simpl in Heq.
    + eapply Hl2; exact Heq.
    + destruct pre as [|a2 pre]; simpl in Heq; [discriminate|].
      injection Heq as _ Heq. eapply Hl2; exact Heq.
Qed.

Lemma loop_trace {H} `{RoutineHandler H} idx fuel k e (r : routine H) outs :
  let '(acts, _, outs', _) := loop idx fuel k e r outs in
  outs' = foldl applyWrite outs acts /\
  (forall j s, In (AWrite j s) acts -> j = idx) /\
  (forall pre ok f post, acts = pre ++ AUpdate ok f :: post ->
     exists s post', post = AWrite idx s :: post').
Proof.
  revert k r outs. induction fuel as [|fuel IH]; intros k r outs; simpl.
  - split; [reflexivity|]. split; [intros j s []|].
    intros pre ok f post Heq. destruct pre; discriminate.
  - destruct (iteration idx k e r outs) as [[[a r'] o'] c] eqn:Hi.
    destruct (iteration_shape idx k e r outs a r' o' c Hi)
      as (ok & f & s & rest & -> & -> & _ & _ & Hrest).
    assert (Hfold : forall l, foldl applyWrite outs ((AUpdate ok f :: AWrite idx s :: rest) ++ l)
                              = foldl applyWrite (<[idx := s]> outs) l)
      by (destruct Hrest as [->|[d ->]]; reflexivity).
    assert (Hin : forall l j s', In (AWrite j s') ((AUpdate ok f :: AWrite idx s :: rest) ++ l) ->
                                 (forall j' s'', In (AWrite j' s'') l -> j' = idx) -> j = idx).
    { intros l j s' Hj Hl. simpl in Hj.
      destruct Hj as [Hj|[Hj|Hj]]; [discriminate|injection Hj as <- _; reflexivity|].
      apply in_app_or in Hj. destruct Hj as [Hj|Hj]; [|eauto].
      destruct Hrest as [->|[d ->]]; simpl in Hj; [contradiction|].
      destruct Hj as [Hj|[]]; discriminate. }
    destruct c.
    + specialize (IH (S k) r' (<[idx := s]> outs)).
      destruct (loop idx fuel (S k) e r' (<[idx := s]> outs)) as [[[a2 r''] o''] fin].
      destruct IH as (IH1 & IH2 & IH3).
      split; [rewrite Hfold; exact IH1|]. split; [intros j s' Hj; eapply Hin; eauto|].
      apply update_then_write_cons; assumption.
    + split; [rewrite Hfold; reflexivity|].
      split; [intros j s' Hj; eapply Hin; [exact Hj|]; intros j' s'' [Hx|[]]; discriminate|].
      apply update_then_write_cons; [assumption|].
      intros pre ok' f' post Heq. destruct pre as [|? [|]]; discriminate.
Qed.

(** [run] only stores into its own slot of the output slice: the final slice
    is the initial one with the traced stores applied in order, its length
    is unchanged, every other slot keeps its value, and every call of
    [Update] is immediately followed by the store of its output. *)
Theorem run_writes_own_slot {H} `{RoutineHandler H} index fuel e now (r : routine H) outs :
  let '(acts, _, outs', _) := run index fuel e now r outs in
  outs' = foldl applyWrite outs acts /\
  length outs' = length outs /\
  (forall j, j <> index -> outs' !! j = outs !! j) /\
  (forall j s, In (AWrite j s) acts -> j = index) /\
  (forall pre ok f post, acts = pre ++ AUpdate ok f :: post ->
     exists s post', post = AWrite index s :: post').
Proof.
  unfold run.
  pose proof (loop_trace index fuel O e (set_active (set_startTime r now) true) outs) as Ht.
  destruct (loop index fuel O e (set_active (set_startTime r now) true) outs)
    as [[[acts r'] outs'] fin].
  destruct Ht as (Hf & Hw & Hu).
  assert (Hkeep : forall l o, (forall j s, In (AWrite j s) l -> j = index) ->
            length (foldl applyWrite o l) = length o /\
            forall j, j <> index -> foldl applyWrite o l !! j = o !! j).
  { induction l as [|a l IHl]; intros o Hl; simpl; [auto|].
    destruct (IHl (applyWrite o a)) as [IHa IHb]; [intros j s Hj; apply (Hl j s); right; exact Hj|].
    split.
    - rewrite IHa. destruct a; simpl; auto. apply length_insert.
    - intros j Hj. rewrite IHb by exact Hj. destruct a; simpl; auto.
      apply list_lookup_insert_ne. intros <-. apply Hj. apply (Hl index0 s). left. reflexivity. }
  destruct (Hkeep acts outs Hw) as [Hl Hn].
  subst outs'. auto.
Qed.

Lemma iteration_stop {H} `{RoutineHandler H} idx k e (r : routine H) outs :
  waker e k = WStop -> (iteration idx k e r outs).2 = false.
Proof.
  intros Hw. unfold iteration.
  destruct (rh_Update (handler r)) as [[h' ok] err].
  destruct ok; simpl; [|reflexivity].
  destruct (intervalTime r =? 0); simpl; [reflexivity|].
  rewrite Hw. reflexivity.
Qed.

Lemma loop_stop {H} `{RoutineHandler H} idx e n fuel k (r : routine H) outs :
  (k <= n < k + fuel)%nat -> waker e n = WStop ->
  let '(acts, r', _, fin) := loop idx fuel k e r outs in
  fin = true /\ isActive r' = false /\
  (length (List.filter isUpdate acts) <= S n - k)%nat /\
  exists pre, acts = pre ++ [AFinished].
Proof.
  intros Hn Hw. revert k r outs Hn. induction fuel as [|fuel IH]; intros k r outs Hn; [lia|].
  simpl.
  pose proof (iteration_stop idx k e r outs) as Hs.
  destruct (iteration idx k e r outs) as [[[a r'] o'] c] eqn:Hi.
  destruct (iteration_shape idx k e r outs a r' o' c Hi)
    as (ok & f & s & rest & -> & -> & _ & _ & Hrest).
  assert (Hc1 : forall l, length (List.filter isUpdate
                  ((AUpdate ok f :: AWrite idx s :: rest) ++ l)) =
                  S (length (List.filter isUpdate l)))
    by (destruct Hrest as [->|[d ->]]; reflexivity).
  destruct c.
  - assert (k <> n) by (intros <-; simpl in Hs; specialize (Hs Hw); discriminate).
    specialize (IH (S k) r' (<[idx := s]> outs) ltac:(lia)).
    destruct (loop idx fuel (S k) e r' (<[idx := s]> outs)) as [[[a2 r''] o''] fin].
    destruct IH as (IH1 & IH2 & IH3 & pre & ->).
    split; [exact IH1|]. split; [exact IH2|]. split.
    + rewrite Hc1. lia.
    + exists ((AUpdate ok f :: AWrite idx s :: rest) ++ pre). rewrite app_assoc. reflexivity.
  - split; [reflexivity|]. split; [reflexivity|]. split.
    + rewrite Hc1. simpl. lia.
    + eexists. reflexivity.
Qed.

(** A stop token taken in the [select] of iteration [n] (within the fuel)
    ends [run]: it sends on [finished], leaves the routine inactive, and has
    called [Update] at most [n + 1] times, whatever the handler returns. *)
Theorem run_stop_finishes {H} `{RoutineHandler H} index fuel e now (r : routine H) outs n :
  (n < fuel)%nat -> waker e n = WStop ->
  let '(acts, r', _, fin) := run index fuel e now r outs in
  fin = true /\ isActive r' = false /\
  (length (List.filter isUpdate acts) <= S n)%nat /\
  exists pre, acts = pre ++ [AFinished].
Proof.
  intros Hn Hw. unfold run.
  pose proof (loop_stop index e n fuel O (set_active (set_startTime r now) true) outs
                ltac:(lia) Hw) as Hl.
  destruct (loop index fuel O e (set_active (set_startTime r now) true) outs)
    as [[[acts r'] outs'] fin].
  rewrite Nat.sub_0_r in Hl. exact Hl.
Qed.

Lemma loop_steady {H} `{RoutineHandler H} (Inv : H -> Prop) idx e fuel k (r : routine H) outs :
  (forall h, Inv h -> let '(h', ok, err) := rh_Update h in ok = true /\ err = None /\ Inv h') ->
  (forall m, waker e m <> WStop) ->
  Inv (handler r) -> intervalTime r <> 0 -> isActive r = true ->
  let '(acts, r', _, fin) := loop idx fuel k e r outs in
  fin = false /\ isActive r' = true /\ intervalTime r' = intervalTime r /\
  exists ss, length ss = fuel /\ acts = steady idx e (intervalTime r) k ss.
Proof.
  intros Hup Hns. revert k r outs. induction fuel as [|fuel IH]; intros k r outs Hinv Hiv Ha.
  - simpl. split; [reflexivity|]. split; [exact Ha|]. split; [reflexivity|].
    exists []. split; reflexivity.
  - simpl. unfold iteration.
    specialize (Hup (handler r) Hinv).
    destruct (rh_Update (handler r)) as [[h' ok] err]. destruct Hup as (-> & -> & Hinv').
    simpl. rewrite (proj2 (Z.eqb_neq _ _) Hiv). simpl.
    assert (Hr2 : (match waker e k with WStop => set_active (set_handler r h') false
                   | _ => set_handler r h' end) = set_handler r h')
      by (destruct (waker e k) eqn:Hw; [reflexivity | exfalso; exact (Hns k Hw) | reflexivity]).
    rewrite Hr2. simpl. rewrite Ha.
    specialize (IH (S k) (set_handler r h') (<[idx := rh_String h']> outs) Hinv' Hiv Ha).
    destruct (loop idx fuel (S k) e (set_handler r h') (<[idx := rh_String h']> outs))
      as [[[a2 r''] o''] fin].
    destruct IH as (IH1 & IH2 & IH3 & ss & Hlen & ->).
    split; [exact IH1|]. split; [exact IH2|]. split; [exact IH3|].
    exists (rh_String h' :: ss). split; [simpl; lia|]. reflexivity.
Qed.

(** When every [Update] succeeds without an error, the interval is non-zero
    and no stop token comes, [run] never finishes: each iteration calls
    [Update], stores its output and waits the interval minus the time spent,
    and the routine stays active with its interval unchanged. *)
Theorem run_steady_never_finishes {H} `{RoutineHandler H} (Inv : H -> Prop)
    index fuel e now (r : routine H) outs :
  (forall h, Inv h -> let '(h', ok, err) := rh_Update h in ok = true /\ err = None /\ Inv h') ->
  (forall m, waker e m <> WStop) ->
  Inv (handler r) -> intervalTime r <> 0 ->
  let '(acts, r', _, fin) := run index fuel e now r outs in
  fin = false /\ isActive r' = true /\ intervalTime r' = intervalTime r /\
  exists ss, length ss = fuel /\ acts = steady index e (intervalTime r) O ss.
Proof.
  intros Hup Hns Hinv Hiv. unfold run.
  exact (loop_steady Inv index e fuel O (set_active (set_startTime r now) true) outs
           Hup Hns Hinv Hiv eq_refl).
Qed.

Lemma sappend_empty_r (a : string) : sappend a "" = a.
Proof.
  unfold sappend. induction a as [|c a IH]; [reflexivity|].
  change (String c (String.append a "") = String c a). rewrite IH. reflexivity.
Qed.

Lemma sappend_assoc (a b c : string) : sappend (sappend a b) c = sappend a (sappend b c).
Proof.
  unfold sappend. induction a as [|x a IH]; [reflexivity|].
  change (String x (String.append (String.append a b) c) =
          String x (String.append a (String.append b c))). rewrite IH. reflexivity.
Qed.

Lemma concat_empty_sep (l : list string) :
  String.concat "" l = fold_right sappend ""%string l.
Proof.
  induction l as [|x [|y l] IH]; simpl; [reflexivity | symmetry; apply sappend_empty_r |].
  simpl in IH. rewrite IH. reflexivity.
Qed.

Lemma buildFrom_nosplit (left right : string) (split : Z) (outs : list string) (i : Z) :
  (split < i \/ i + Z.of_nat (length outs) <= split) ->
  buildFrom left right split i outs =
    fold_right sappend ""%string (map (frag left right) (List.filter nonEmpty outs)).
Proof.
  revert i. induction outs as [|s outs IH]; intros i Hi; simpl; [reflexivity|].
  cbn [length] in Hi. rewrite Nat2Z.inj_succ in Hi.
  rewrite (proj2 (Z.eqb_neq i split)) by lia. rewrite sappend_empty_r.
  rewrite IH by lia. unfold nonEmpty. destruct (0 <? String.length s)%nat; reflexivity.
Qed.

Lemma substring_prefix (a b : string) (m : nat) :
  substring 0 (String.length a + m) (sappend a b) = sappend a (substring 0 m b).
Proof. induction a as [|c a IH]; simpl; [reflexivity | rewrite IH; reflexivity]. Qed.

Lemma drop_last_space (l : list string) :
  l <> [] ->
  let b := fold_right sappend ""%string (map (fun x => sappend x " ") l) in
  (0 < String.length b)%nat /\ substring 0 (String.length b - 1) b = joinSp l.
Proof.
  induction l as [|x [|y l] IH]; intros Hne; [congruence| |]; simpl.
  - rewrite sappend_empty_r, length_sappend. simpl. split; [lia|].
    replace (String.length x + 1 - 1)%nat with (String.length x + 0)%nat by lia.
    rewrite substring_prefix. simpl. apply sappend_empty_r.
  - destruct (IH ltac:(discriminate)) as [Hpos Hsub]. simpl in Hpos, Hsub.
    rewrite !length_sappend in *. simpl in *. split; [lia|].
    rewrite sappend_assoc.
    set (B := foldr sappend "" (map (fun x0 => sappend x0 " ") l)) in *.
    set (Y := sappend (sappend y " ") B) in *.
    assert (HY : String.length Y = (String.length y + 1 + String.length B)%nat)
      by (unfold Y; rewrite !length_sappend; reflexivity).
    replace (String.length x + 1 + (String.length y + 1 + String.length B) - 1)%nat
      with (String.length x + S (String.length Y - 1))%nat by lia.
    rewrite substring_prefix. simpl. rewrite <- HY in Hsub. change ("" +:+ Y) with Y. rewrite Hsub.
    rewrite (sappend_assoc x " "). reflexivity.
Qed.

Lemma map_frag (left right : string) (l : list string) :
  map (frag left right) l =
    map (fun x => sappend x " ") (map (fun s => sappend (sappend left (shorten s)) right) l).
Proof. rewrite map_map. reflexivity. Qed.

Lemma tick_of_frags (left right : string) (split : Z) (outs : list string) :
  buildFrom left right split 0 outs =
    fold_right sappend ""%string (map (frag left right) (List.filter nonEmpty outs)) ->
  buildBarTick left right split outs = barNoSplit left right outs.
Proof.
  intros Hb. unfold buildBarTick, barNoSplit. rewrite Hb.
  destruct (List.filter nonEmpty outs) as [|x xs] eqn:Hf; [reflexivity|].
  rewrite map_frag.
  destruct (drop_last_space (map (fun s => sappend (sappend left (shorten s)) right) (x :: xs))
              ltac:(discriminate)) as [Hpos Hsub].
  simpl in Hpos, Hsub |- *.
  apply Nat.ltb_lt in Hpos. rewrite Hpos. exact Hsub.
Qed.

(** With no split inside the output slice (a negative split index, as left
    by [New], or one past the last slot), [buildBar] hands [setBar] the
    non-empty outputs, shortened and between the delimiters, joined by single
    spaces, and ["No output"] when all outputs are empty. *)
Theorem buildBar_without_split (left right : string) (split : Z) (outs : list string) :
  (split < 0 \/ Z.of_nat (length outs) <= split) ->
  buildBarTick left right split outs = barNoSplit left right outs.
Proof.
  intros Hs. apply tick_of_frags. apply buildFrom_nosplit. lia.
Qed.

Lemma buildFrom_app (left right : string) (split i : Z) (xs ys : list string) :
  buildFrom left right split i (xs ++ ys) =
    sappend (buildFrom left right split i xs)
            (buildFrom left right split (i + Z.of_nat (length xs)) ys).
Proof.
  revert i. induction xs as [|x xs IH]; intros i; simpl.
  - rewrite Z.add_0_r. reflexivity.
  - rewrite IH, <- sappend_assoc. f_equal. f_equal. lia.
Qed.

Lemma buildFrom_split_last (left right : string) (split i : Z) (xs : list string) :
  i <= split -> i + Z.of_nat (length xs) = split + 1 ->
  buildFrom left right split i xs =
    sappend (fold_right sappend ""%string (map (frag left right) (List.filter nonEmpty xs))) ";".
Proof.
  revert i. induction xs as [|x xs IH]; intros i Hi Hl; cbn [length] in Hl; [lia|].
  rewrite Nat2Z.inj_succ in Hl. simpl.
  destruct xs as [|x' xs'].
  - simpl in Hl. rewrite (proj2 (Z.eqb_eq i split)) by lia. simpl.
    unfold nonEmpty. destruct (0 <? String.length x)%nat; simpl.
    + rewrite !sappend_empty_r. reflexivity.
    + rewrite sappend_empty_r. reflexivity.
  - rewrite (proj2 (Z.eqb_neq i split)) by (simpl in Hl; lia).
    rewrite sappend_empty_r, IH by (simpl in *; lia).
    unfold nonEmpty. destruct (0 <? String.length x)%nat; simpl; [|reflexivity].
    exact (eq_sym (sappend_assoc _ _ _)).
Qed.

(** With the split on slot [k] and some non-empty output after it, the bar is
    the fragments of slots [0..k] (each with its trailing space), then [";"],
    then the later outputs joined as without a split. *)
Theorem buildBar_split_marker (left right : string) (k : nat) (xs ys : list string) :
  length xs = S k -> existsb nonEmpty ys = true ->
  buildBarTick left right (Z.of_nat k) (xs ++ ys) =
    sappend (String.concat "" (map (frag left right) (List.filter nonEmpty xs)))
            (sappend ";" (barNoSplit left right ys)).
Proof.
  intros Hl Hy. unfold buildBarTick.
  rewrite buildFrom_app, buildFrom_split_last by lia.
  rewrite buildFrom_nosplit by lia.
  rewrite concat_empty_sep.
  set (Fx := fold_right sappend "" (map (frag left right) (List.filter nonEmpty xs))).
  unfold barNoSplit.
  destruct (List.filter nonEmpty ys) as [|y ys'] eqn:Hf.
  - exfalso. apply existsb_exists in Hy. destruct Hy as [z [Hz Hnz]].
    assert (In z (List.filter nonEmpty ys)) by (apply filter_In; auto).
    rewrite Hf in H. contradiction.
  - rewrite map_frag.
    destruct (drop_last_space (map (fun s => sappend (sappend left (shorten s)) right) (y :: ys'))
                ltac:(discriminate)) as [Hpos Hsub].
    set (B := fold_right sappend "" (map (fun x => sappend x " ")
               (map (fun s => sappend (sappend left (shorten s)) right) (y :: ys')))) in *.
    rewrite !length_sappend. simpl String.length at 2.
    rewrite (proj2 (Nat.ltb_lt _ _)) by lia.
    replace (String.length Fx + String.length ";" + String.length B - 1)%nat
      with (String.length (sappend Fx ";") + (String.length B - 1))%nat
      by (rewrite length_sappend; simpl; lia).
    rewrite substring_prefix. rewrite Hsub. rewrite sappend_assoc. reflexivity.
Qed.

Lemma Appends_routines {H} (sb : Statusbar H) adds :
  split (Appends sb adds) = split sb /\
  leftDelim (Appends sb adds) = leftDelim sb /\
  rightDelim (Appends sb adds) = rightDelim sb /\
  exists rs, routines (Appends sb adds) = routines sb ++ rs /\ length rs = length adds.
Proof.
  unfold Appends. revert sb. induction adds as [|[[h refType] seconds] adds IH]; intros sb; simpl.
  - repeat split; auto. exists []. rewrite app_nil_r. auto.
  - destruct (IH (Append sb h refType seconds)) as (H1 & H2 & H3 & rs & Hrs & Hl).
    simpl in *. repeat split; auto.
    eexists. rewrite Hrs, <- app_assoc. split; [reflexivity|]. simpl. lia.
Qed.

(** [Split] followed by any number of [Append] calls leaves the split index at
    the last routine registered before [Split] ([-1] when there was none)
    and keeps those routines first. *)
Theorem split_then_appends {H} (sb : Statusbar H) adds :
  let sb' := Appends (Split sb) adds in
  split sb' = Z.of_nat (length (routines sb)) - 1 /\
  take (length (routines sb)) (routines sb') = routines sb /\
  length (routines sb') = (length (routines sb) + length adds)%nat.
Proof.
  destruct (Appends_routines (Split sb) adds) as (H1 & _ & _ & rs & Hrs & Hl).
  simpl. rewrite H1, Hrs. simpl. split; [reflexivity|]. split.
  - rewrite take_app_length. reflexivity.
  - rewrite length_app, Hl. reflexivity.
Qed.

(** ** Module names *)

Lemma splitDot_cons_nodot (p s : string) :
  ~ In "."%char (list_ascii_of_string p) ->
  exists q qs, splitDot s = q :: qs /\ splitDot (sappend p s) = sappend p q :: qs.
Proof.
  induction p as [|a p IH]; intros Hp.
  - simpl. destruct s as [|c s]; simpl.
    + eexists _, _. split; reflexivity.
    + destruct (Ascii.eqb c "."%char); [eexists _, _; split; reflexivity|].
      destruct (splitDot s) as [|q qs]; eexists _, _; split; reflexivity.
  - destruct IH as (q & qs & Hs & Hps); [intros Hin; apply Hp; right; exact Hin|].
    exists q, qs. split; [exact Hs|].
    change (sappend (String a p) s) with (String a (sappend p s)).
    simpl. rewrite Hps.
    destruct (Ascii.eqb_spec a "."%char) as [->|_]; [exfalso; apply Hp; left; reflexivity|].
    reflexivity.
Qed.

(** [Append]'s module name for a type string [p.t] with no other dot is [p]
    without one leading ['*']. *)
Theorem moduleOf_package (p t : string) :
  ~ In "."%char (list_ascii_of_string p) -> ~ In "."%char (list_ascii_of_string t) ->
  moduleOf (sappend p (String "." t)) = Some (trimStar p).
Proof.
  intros Hp Ht. unfold moduleOf.
  destruct (splitDot_cons_nodot p (String "." t) Hp) as (q & qs & Hs & ->).
  simpl in Hs. 
  injection Hs as <- <-.
  destruct (splitDot_cons_nodot t "" Ht) as (q' & qs' & Hs' & Ht').
  simpl in Hs'. injection Hs' as <- <-. rewrite sappend_empty_r in Ht'. rewrite Ht'.
  rewrite sappend_empty_r. reflexivity.
Qed.

Lemma splitDot_length (s : string) :
  length (splitDot s) = S (count_occ ascii_dec (list_ascii_of_string s) "."%char).
Proof.
  induction s as [|a s IH]; [reflexivity|]. simpl.
  destruct (Ascii.eqb_spec a "."%char) as [->|Hne].
  - simpl. rewrite IH. destruct (ascii_dec "." "."); [reflexivity|congruence].
  - destruct (splitDot s) as [|q qs]; simpl in *; [lia|].
    destruct (ascii_dec a "."); [congruence|]. exact IH.
Qed.

(** [Append] finds no module name (and leaves the routine's name empty)
    exactly when the type string does not contain exactly one dot. *)
Theorem moduleOf_none_iff (refType : string) :
  moduleOf refType = None <->
  count_occ ascii_dec (list_ascii_of_string refType) "."%char <> 1%nat.
Proof.
  rewrite <- (Nat.succ_inj_wd_neg _ 1%nat), <- splitDot_length. unfold moduleOf.
  destruct (splitDot refType) as [|a [|b [|c l]]]; simpl; split; intros Hx;
    try discriminate; try reflexivity; try lia.
Qed.

(** ** Read-only handlers *)

Lemma getRoutine_app_snd {H} (l1 l2 : list (routine H)) nm :
  snd <$> getRoutine (l1 ++ l2) nm =
    match snd <$> getRoutine l1 nm with
    | Some r => Some r
    | None => snd <$> getRoutine l2 nm
    end.
Proof.
  induction l1 as [|r l1 IH]; simpl; [destruct (snd <$> getRoutine l2 nm); reflexivity|].
  destruct (String.eqb nm (name r)); [reflexivity|].
  destruct (getRoutine (l1 ++ l2) nm) as [[i x]|] eqn:E1;
    destruct (getRoutine l1 nm) as [[j y]|] eqn:E2; simpl in *; exact IH.
Qed.

(** [HandleGetRoutineAll] answers 200 with a map whose entry for a module name
    is the information of the LAST routine with that name (and no entry when
    no routine has it), while [getRoutine] picks the first. *)
Theorem get_all_last_wins {H} `{RoutineHandler H} (now : Z) (rs : list (routine H)) nm :
  (HandleGetRoutineAll now rs).1 = 200 /\
  (HandleGetRoutineAll now rs).2 !! nm =
    (fun r => getRoutineInfo now (Some r)) <$> (snd <$> getRoutine (reverse rs) nm).
Proof.
  split; [reflexivity|]. unfold HandleGetRoutineAll. simpl.
  assert (Hgen : forall (m : gmap string routineInfo),
    fold_left (fun infos r => <[name r := getRoutineInfo now (Some r)]> infos) rs m !! nm =
    match snd <$> getRoutine (reverse rs) nm with
    | Some r => Some (getRoutineInfo now (Some r))
    | None => m !! nm
    end).
  { induction rs as [|r rs IH]; intros m; [reflexivity|].
    simpl. rewrite IH, reverse_cons, getRoutine_app_snd. simpl.
    destruct (snd <$> getRoutine (reverse rs) nm) as [x|]; [reflexivity|].
    destruct (String.eqb_spec nm (name r)) as [->|Hne]; simpl.
    - rewrite lookup_insert. case_decide; [reflexivity|congruence].
    - rewrite lookup_insert. case_decide; [congruence|reflexivity]. }
  rewrite Hgen. destruct (snd <$> getRoutine (reverse rs) nm); reflexivity.
Qed.

(** ** The disk module *)

Lemma shrinkLoop_more_fuel (f m : nat) (b : Z) (i : nat) x :
  shrinkLoop f b i = Some x -> shrinkLoop (f + m) b i = Some x.
Proof.
  revert b i. induction f as [|f IH]; intros b i Hs; simpl in *; [discriminate|].
  destruct (1024 <? b); [apply IH; exact Hs | exact Hs].
Qed.

Lemma shrinkLoop_spec (f : nat) (b : Z) (i : nat) :
  0 <= b < 2 ^ (10 * Z.of_nat f + 10) ->
  exists k, (k <= f)%nat /\
    shrinkLoop (S f) b i = Some (Z.shiftr b (10 * Z.of_nat k), (i + k)%nat) /\
    Z.shiftr b (10 * Z.of_nat k) <= 1024 /\
    (k = O \/ 1024 < Z.shiftr b (10 * (Z.of_nat k - 1))).
Proof.
  revert b i. induction f as [|f IH]; intros b i Hb.
  - exists O. simpl in *. rewrite (proj2 (Z.ltb_ge 1024 b)) by lia.
    rewrite Nat.add_0_r, Z.shiftr_0_r. split; [lia|]. split; [reflexivity|]. split; [lia|auto].
  - change (shrinkLoop (S (S f)) b i) with
      (if 1024 <? b then shrinkLoop (S f) (Z.shiftr b 10) (S i) else Some (b, i)).
    destruct (Z.ltb_spec 1024 b) as [Hgt|Hle].
    + assert (Hb' : 0 <= Z.shiftr b 10 < 2 ^ (10 * Z.of_nat f + 10)).
      { rewrite Z.shiftr_div_pow2 by lia. split; [apply Z.div_pos; lia|].
        apply Z.div_lt_upper_bound; [lia|].
        rewrite <- Z.pow_add_r by lia. rewrite Nat2Z.inj_succ in Hb.
        replace (10 + (10 * Z.of_nat f + 10)) with (10 * Z.succ (Z.of_nat f) + 10) by lia.
        lia. }
      destruct (IH (Z.shiftr b 10) (S i) Hb') as (k & Hk & Hs & Hv & Hmin).
      assert (Hsh : forall n, 0 <= n -> Z.shiftr (Z.shiftr b 10) n = Z.shiftr b (10 + n))
        by (intros n Hn; rewrite Z.shiftr_shiftr by lia; reflexivity).
      exists (S k). split; [lia|].
      rewrite Hs, Hsh by lia.
      replace (10 + 10 * Z.of_nat k) with (10 * Z.of_nat (S k)) by lia.
      replace (S i + k)%nat with (i + S k)%nat by lia.
      split; [reflexivity|].
      rewrite Hsh in Hv by lia. replace (10 + 10 * Z.of_nat k) with (10 * Z.of_nat (S k)) in Hv by lia.
      split; [exact Hv|]. right.
      destruct k as [|k'].
      * simpl. rewrite Z.shiftr_0_r. exact Hgt.
      * destruct Hmin as [Hmin|Hmin]; [discriminate|].
        rewrite Hsh in Hmin by lia.
        replace (10 + 10 * (Z.of_nat (S k') - 1)) with (10 * (Z.of_nat (S (S k')) - 1)) in Hmin by lia.
        exact Hmin.
    + exists O. rewrite Nat.add_0_r, Z.shiftr_0_r.
      split; [lia|]. split; [reflexivity|]. split; [lia|auto].
Qed.

(** For every [uint64], [shrink] does not panic: it shifts right by 10 bits
    [i] times, [i] being the fewest that bring the value to at most 1024,
    and returns the [i]-th unit of ["BKMGTPE"]. *)
Theorem shrink_uint64 (blocks : Z) :
  0 <= blocks < 2 ^ 64 ->
  exists i u,
    shrink blocks = Some (Z.shiftr blocks (10 * Z.of_nat i), u) /\
    units !! i = Some u /\
    Z.shiftr blocks (10 * Z.of_nat i) <= 1024 /\
    (i = O \/ 1024 < Z.shiftr blocks (10 * (Z.of_nat i - 1))).
Proof.
  intros Hb.
  destruct (shrinkLoop_spec 6 blocks 0 ltac:(simpl; lia)) as (k & Hk & Hs & Hv & Hmin).
  apply (shrinkLoop_more_fuel _ 57) in Hs. simpl (S 6 + 57)%nat in Hs.
  unfold shrink. rewrite Hs. simpl (0 + k)%nat.
  destruct (lookup_lt_is_Some_2 units k) as [u Hu]; [simpl; lia|].
  exists k, u. rewrite Hu. auto.
Qed.

Lemma wrapU64_small (z : Z) : 0 <= z < 2 ^ 64 -> wrapU64 z = z.
Proof. intros Hz. unfold wrapU64. apply Z.mod_small. exact Hz. Qed.

(** Without overflow and with [Bavail] at most [Blocks], [Update]'s total is
    [Blocks * Bsize], its used bytes [(Blocks - Bavail) * Bsize], and its
    percentage the truncated [(Blocks - Bavail) * 100 / Blocks], between 0
    and 100. *)
Theorem diskUsage_in_range (blocks bavail bsize : Z) :
  0 <= bavail <= blocks -> 0 < blocks -> 0 < bsize -> blocks * bsize * 100 < 2 ^ 64 ->
  exists perc,
    diskUsage blocks bavail bsize = Some (perc, (blocks - bavail) * bsize, blocks * bsize) /\
    perc = (blocks - bavail) * 100 / blocks /\ 0 <= perc <= 100.
Proof.
  intros Hav Hbl Hbs Hmax. unfold diskUsage.
  assert (Hp : 0 < blocks * bsize) by nia.
  rewrite (wrapU64_small bsize) by lia.
  rewrite (wrapU64_small (blocks * bsize)) by lia.
  rewrite (wrapU64_small (bavail * bsize)) by nia.
  rewrite (wrapU64_small (blocks * bsize - bavail * bsize)) by nia.
  rewrite (wrapU64_small ((blocks * bsize - bavail * bsize) * 100)) by nia.
  rewrite (proj2 (Z.eqb_neq _ 0)) by lia.
  replace (blocks * bsize - bavail * bsize) with ((blocks - bavail) * bsize) by ring.
  eexists. split; [reflexivity|].
  assert (Hq : (blocks - bavail) * bsize * 100 / (blocks * bsize) =
               (blocks - bavail) * 100 / blocks).
  { replace ((blocks - bavail) * bsize * 100) with (((blocks - bavail) * 100) * bsize) by ring.
    rewrite Z.div_mul_cancel_r by lia. reflexivity. }
  rewrite Hq. split; [reflexivity|]. split.
  - apply Z.div_pos; lia.
  - apply Z.div_le_upper_bound; lia.
Qed.

(** A filesystem reported with zero blocks or a zero block size makes
    [Update] divide by zero. *)
Theorem diskUsage_zero_total_panics :
  (forall bavail bsize, diskUsage 0 bavail bsize = None) /\
  (forall blocks bavail, diskUsage blocks bavail 0 = None).
Proof.
  split; intros; unfold diskUsage, wrapU64; simpl;
    rewrite ?Z.mul_0_r, ?Zmod_0_l; reflexivity.
Qed.

(** ** Instances of the properties on concrete inputs *)

Lemma patch_then_get_interval_witness :
  getRoutine [diskRoutine] "sbdisk" = Some (0%nat, diskRoutine) /\ 0 <= 45 <= 9223372036 /\
  HandleGetRoutine (7 * Second)
    (HandlePatchRoutine [diskRoutine] "sbdisk" (BodyJson (Some 45))).2 "sbdisk" =
    (200, Some ("sbdisk"%string,
                mkRoutineInfo (rh_Name (handler diskRoutine))
                  (uptime (7 * Second) (Some diskRoutine)) 45 (isActive diskRoutine))).
Proof.
  split; [reflexivity|]. split; [lia|].
  apply (patch_then_get_interval (7 * Second) [diskRoutine] "sbdisk" 0%nat diskRoutine 45);
    [reflexivity | lia].
Defined.

Lemma run_stop_finishes_witness :
  (2 < 5)%nat /\ waker stopEnv 2 = WStop /\
  let '(acts, r', _, fin) := run 0 5 stopEnv 0 steadyRoutine [""%string] in
  fin = true /\ isActive r' = false /\
  (length (List.filter isUpdate acts) <= S 2)%nat /\
  exists pre, acts = pre ++ [AFinished].
Proof.
  split; [lia|]. split; [reflexivity|].
  apply (run_stop_finishes 0 5 stopEnv 0 steadyRoutine [""%string] 2); [lia | reflexivity].
Defined.

Lemma run_steady_never_finishes_witness :
  (forall h : Scripted, h = [] ->
     let '(h', ok, err) := rh_Update h in ok = true /\ err = None /\ h' = []) /\
  (forall m, waker timerEnv m <> WStop) /\
  handler steadyRoutine = [] /\ intervalTime steadyRoutine <> 0 /\
  let '(acts, r', _, fin) := run 0 3 timerEnv 0 steadyRoutine [""%string] in
  fin = false /\ isActive r' = true /\ intervalTime r' = intervalTime steadyRoutine /\
  exists ss, length ss = 3%nat /\ acts = steady 0 timerEnv (intervalTime steadyRoutine) O ss.
Proof.
  assert (Hup : forall h : Scripted, h = [] ->
     let '(h', ok, err) := rh_Update h in ok = true /\ err = None /\ h' = [])
    by (intros h ->; simpl; auto).
  assert (Hns : forall m, waker timerEnv m <> WStop) by (intros m; simpl; discriminate).
  assert (Hiv : intervalTime steadyRoutine <> 0) by (vm_compute; discriminate).
  split; [exact Hup|]. split; [exact Hns|]. split; [reflexivity|]. split; [exact Hiv|].
  exact (run_steady_never_finishes (fun h : Scripted => h = []) 0 3 timerEnv 0 steadyRoutine
           [""%string] Hup Hns eq_refl Hiv).
Defined.

Lemma buildBar_without_split_witness :
  (-1 < 0 \/ Z.of_nat (length ["a"; ""; "b"]%string) <= -1) /\
  buildBarTick "[" "]" (-1) ["a"; ""; "b"]%string = barNoSplit "[" "]" ["a"; ""; "b"]%string.
Proof.
  split; [left; lia|].
  apply (buildBar_without_split "[" "]" (-1) ["a"; ""; "b"]%string). left. lia.
Defined.

Lemma buildBar_split_marker_witness :
  length ["a"; "b"]%string = S 1 /\ existsb nonEmpty [""; "c"]%string = true /\
  buildBarTick "[" "]" (Z.of_nat 1) (["a"; "b"]%string ++ [""; "c"]%string) =
    sappend (String.concat "" (map (frag "[" "]") (List.filter nonEmpty ["a"; "b"]%string)))
            (sappend ";" (barNoSplit "[" "]" [""; "c"]%string)).
Proof.
  split; [reflexivity|]. split; [reflexivity|].
  apply (buildBar_split_marker "[" "]" 1 ["a"; "b"]%string [""; "c"]%string);
    reflexivity.
Defined.

Lemma moduleOf_package_witness :
  ~ In "."%char (list_ascii_of_string "*sbdisk") /\
  ~ In "."%char (list_ascii_of_string "Routine") /\
  moduleOf (sappend "*sbdisk" (String "." "Routine")) = Some (trimStar "*sbdisk").
Proof.
  assert (Hp : ~ In "."%char (list_ascii_of_string "*sbdisk"))
    by (simpl; intuition discriminate).
  assert (Ht : ~ In "."%char (list_ascii_of_string "Routine"))
    by (simpl; intuition discriminate).
  split; [exact Hp|]. split; [exact Ht|].
  exact (moduleOf_package "*sbdisk" "Routine" Hp Ht).
Defined.

Lemma shrink_uint64_witness :
  0 <= 1025 < 2 ^ 64 /\
  exists i u,
    shrink 1025 = Some (Z.shiftr 1025 (10 * Z.of_nat i), u) /\
    units !! i = Some u /\
    Z.shiftr 1025 (10 * Z.of_nat i) <= 1024 /\
    (i = O \/ 1024 < Z.shiftr 1025 (10 * (Z.of_nat i - 1))).
Proof.
  split; [lia|]. apply (shrink_uint64 1025). lia.
Defined.

Lemma diskUsage_in_range_witness :
  0 <= 250 <= 1000 /\ 0 < 1000 /\ 0 < 4096 /\ 1000 * 4096 * 100 < 2 ^ 64 /\
  exists perc,
    diskUsage 1000 250 4096 = Some (perc, (1000 - 250) * 4096, 1000 * 4096) /\
    perc = (1000 - 250) * 100 / 1000 /\ 0 <= perc <= 100.
Proof.
  split; [lia|]. split; [lia|]. split; [lia|]. split; [lia|].
  apply (diskUsage_in_range 1000 250 4096); lia.
Defined.



(** When [HandlePutRoutineAll] answers 500 at the first active routine whose
    refresh slot is taken, the active routines before it have already been
    sent a refresh (it is not rolled back) and the routines after it are left
    as they were. *)
Theorem put_all_partial_refresh {H} (pre : list (routine H)) r post :
  Forall (fun r => isActive r = true -> updateChan r = false) pre ->
  isActive r = true -> updateChan r = true ->
  HandlePutRoutineAll (pre ++ r :: post) =
    (500, map (fun r => if isActive r then set_updateChan r true else r) pre ++ r :: post).
Proof.
  intros Hpre Ha Hu. induction Hpre as [|r0 pre Hr0 Hpre IH]; simpl.
  - rewrite Ha, Hu. reflexivity.
  - destruct (isActive r0) eqn:Ha0.
    + rewrite (Hr0 eq_refl). simpl. rewrite IH. reflexivity.
    + rewrite IH. reflexivity.
Qed.

Lemma put_all_partial_refresh_witness :
  Forall (fun r => isActive r = true -> updateChan r = false) [diskRoutine; steadyRoutine] /\
  isActive (set_updateChan diskRoutine true) = true /\ updateChan (set_updateChan diskRoutine true) = true /\
  HandlePutRoutineAll ([diskRoutine; steadyRoutine] ++ set_updateChan diskRoutine true :: [diskRoutine]) =
    (500, map (fun r => if isActive r then set_updateChan r true else r)
            [diskRoutine; steadyRoutine] ++ set_updateChan diskRoutine true :: [diskRoutine]).
Proof.
  assert (Hpre : Forall (fun r => isActive r = true -> updateChan r = false)
                   [diskRoutine; steadyRoutine])
    by (repeat constructor).
  split; [exact Hpre|]. split; [reflexivity|]. split; [reflexivity|].
  exact (put_all_partial_refresh [diskRoutine; steadyRoutine] (set_updateChan diskRoutine true)
           [diskRoutine] Hpre eq_refl eq_refl).
Defined.
